(** * The pre-commit documentation gate (hooks/pre_commit_docs_check.py)

    A shallow embedding of the hook and the properties of its verdict.
    Python [str] values are sequences of Unicode code points; the file
    system, the staged-file query and the build tool are read from an
    explicit [World]. *)

From Stdlib Require Import ZArith NArith Lia Ascii.
From stdpp Require Import base option list strings gmap sets.
From stdpp Require Import sorting.

Local Open Scope N_scope.

(** ** Python strings *)

(** A character is a Unicode code point, a [str] a list of them. *)
Definition char := N.
Definition str := list char.

(** Source literals are written as UTF-8 text and decoded to code points. *)
Fixpoint utf8_decode (bs : list N) : str :=
  match bs with
  | [] => []
  | b0 :: t0 =>
    if b0 <? 128 then b0 :: utf8_decode t0
    else if b0 <? 224 then
      match t0 with
      | b1 :: t1 =>
        N.lor (N.shiftl (N.land b0 31) 6) (N.land b1 63) :: utf8_decode t1
      | _ => []
      end
    else if b0 <? 240 then
      match t0 with
      | b1 :: b2 :: t2 =>
        N.lor (N.shiftl (N.land b0 15) 12)
          (N.lor (N.shiftl (N.land b1 63) 6) (N.land b2 63)) :: utf8_decode t2
      | _ => []
      end
    else
      match t0 with
      | b1 :: b2 :: b3 :: t3 =>
        N.lor (N.shiftl (N.land b0 7) 18)
          (N.lor (N.shiftl (N.land b1 63) 12)
             (N.lor (N.shiftl (N.land b2 63) 6) (N.land b3 63))) :: utf8_decode t3
      | _ => []
      end
  end.

Fixpoint bytes_of_string (s : string) : list N :=
  match s with
  | EmptyString => []
  | String a s' => N_of_ascii a :: bytes_of_string s'
  end.

Definition u (s : string) : str := utf8_decode (bytes_of_string s).

(** The line feed, written [\n] in the source. *)
Definition nl : str := [10].

Definition char_eqb (a b : char) : bool := N.eqb a b.

(** [s.startswith(p)] *)
Fixpoint startswith (p s : str) : bool :=
  match p, s with
  | [], _ => true
  | a :: p', b :: s' => char_eqb a b && startswith p' s'
  | _ :: _, [] => false
  end.

(** [s.endswith(p)] *)
Definition endswith (p s : str) : bool := startswith (reverse p) (reverse s).

(** [sub in s] *)
Fixpoint contains (sub s : str) : bool :=
  startswith sub s ||
  match s with
  | [] => false
  | _ :: s' => contains sub s'
  end.

(** [s.split(sep)] for a one-character separator. *)
Fixpoint str_split (sep : char) (s : str) : list str :=
  match s with
  | [] => [[]]
  | c :: s' =>
    if char_eqb c sep then [] :: str_split sep s'
    else match str_split sep s' with
         | h :: t => (c :: h) :: t
         | [] => [[c]]
         end
  end.

(** [sep.join(l)] *)
Fixpoint str_join (sep : str) (l : list str) : str :=
  match l with
  | [] => []
  | [x] => x
  | x :: l' => x ++ sep ++ str_join sep l'
  end.

(** [s[:n]] for a non-negative [n]. *)
Definition slice_to (n : nat) (s : str) : str := take n s.

(** Truth value of a string, a list and an optional string in a condition. *)
Definition truthy {A} (l : list A) : bool :=
  match l with [] => false | _ => true end.

Definition truthy_opt (o : option str) : bool :=
  match o with Some s => truthy s | None => false end.

(** [str(n)] for a length. *)
Definition digit_char (d : nat) : char := 48 + N.of_nat d.

Fixpoint decimal_fuel (fuel n : nat) (acc : str) : str :=
  match fuel with
  | O => acc
  | S fuel' =>
    let acc' := digit_char (n mod 10) :: acc in
    if (n / 10 =? 0)%nat then acc' else decimal_fuel fuel' (n / 10)%nat acc'
  end.

Definition str_of_nat (n : nat) : str := decimal_fuel (S n) n [].

(** ** Character tables of the interpreter

    [str.lower], [str.capitalize], [str.isspace] and the regular-expression
    classes [\s] and [\w] read the interpreter's Unicode tables, which are
    not part of the repository: they are a parameter, fixed on ASCII, where
    the tables are known. *)

Definition is_ascii (c : char) : Prop := c < 128.

Definition in_range (lo hi c : char) : bool := (lo <=? c) && (c <=? hi).

Definition ascii_isspace (c : char) : bool := in_range 9 13 c || in_range 28 32 c.

Definition ascii_isword (c : char) : bool :=
  in_range 48 57 c || in_range 65 90 c || char_eqb c 95 || in_range 97 122 c.

Definition ascii_lower (c : char) : char := if in_range 65 90 c then c + 32 else c.

Definition ascii_upper (c : char) : char := if in_range 97 122 c then c - 32 else c.

Definition ascii_capitalize (s : str) : str :=
  match s with
  | [] => []
  | c :: s' => ascii_upper c :: map ascii_lower s'
  end.

Class Unicode := {
  isspace : char -> bool;
  isword : char -> bool;
  lower : str -> str;
  capitalize : str -> str;
  isspace_ascii : forall c, is_ascii c -> isspace c = ascii_isspace c;
  isword_ascii : forall c, is_ascii c -> isword c = ascii_isword c;
  lower_ascii : forall s, Forall is_ascii s -> lower s = map ascii_lower s;
  capitalize_ascii : forall s, Forall is_ascii s -> capitalize s = ascii_capitalize s
}.

(** The tables cut down to ASCII: every other code point is caseless, and
    neither a space nor a word character. *)
#[export] Instance ascii_tables : Unicode := {|
  isspace := ascii_isspace;
  isword := ascii_isword;
  lower := map ascii_lower;
  capitalize := ascii_capitalize;
  isspace_ascii := fun _ _ => eq_refl;
  isword_ascii := fun _ _ => eq_refl;
  lower_ascii := fun _ _ => eq_refl;
  capitalize_ascii := fun _ _ => eq_refl
|}.

(** [s.strip()] *)
Fixpoint lstrip `{Unicode} (s : str) : str :=
  match s with
  | [] => []
  | c :: s' => if isspace c then lstrip s' else s
  end.

Definition strip `{Unicode} (s : str) : str := reverse (lstrip (reverse (lstrip s))).

(** ** Regular expressions

    The fragment of [re] the hook uses, matched by backtracking as [re]
    does: a repetition first takes as much as it can. *)

Inductive regex :=
| Eps
| Chr (c : char)
| Cls (p : char -> bool)
| Rep1 (p : char -> bool)
| WordB
| Bol
| Cat (r1 r2 : regex).

Definition lit (s : str) : regex := foldr (fun c r => Cat (Chr c) r) Eps s.

Definition is_word_at `{Unicode} (o : option char) : bool :=
  match o with Some c => isword c | None => false end.

Fixpoint rep1 {A} (p : char -> bool) (s : str) (k : char -> str -> option A) : option A :=
  match s with
  | c :: s' =>
    if p c then
      match rep1 p s' k with
      | Some a => Some a
      | None => k c s'
      end
    else None
  | [] => None
  end.

(** [rmatch r prev s k]: match [r] at the head of [s], [prev] being the
    character before it, and continue with [k] on what follows. *)
Fixpoint rmatch `{Unicode} {A} (r : regex) (prev : option char) (s : str)
    (k : option char -> str -> option A) : option A :=
  match r with
  | Eps => k prev s
  | Chr c =>
    match s with
    | a :: s' => if char_eqb a c then k (Some a) s' else None
    | [] => None
    end
  | Cls p =>
    match s with
    | a :: s' => if p a then k (Some a) s' else None
    | [] => None
    end
  | Rep1 p => rep1 p s (fun c s' => k (Some c) s')
  | WordB => if xorb (is_word_at prev) (is_word_at (head s)) then k prev s else None
  | Bol => match prev with None => k prev s | Some _ => None end
  | Cat r1 r2 => rmatch r1 prev s (fun prev' s' => rmatch r2 prev' s' k)
  end.

(** [re.match(r, s)]: the text matched at the start of [s], if any. *)
Definition re_match `{Unicode} (r : regex) (s : str) : option str :=
  match rmatch r None s (fun _ rest => Some rest) with
  | Some rest => Some (take (length s - length rest) s)
  | None => None
  end.

(** [re.search(r, s)]: the first position where [r] matches. *)
Fixpoint search_from `{Unicode} (r : regex) (prev : option char) (s : str) : option str :=
  match rmatch r prev s (fun _ rest => Some rest) with
  | Some rest => Some rest
  | None =>
    match s with
    | [] => None
    | c :: s' => search_from r (Some c) s'
    end
  end.

Definition re_search `{Unicode} (r : regex) (s : str) : option str := search_from r None s.

(** ** JSON values *)

(** A decoded JSON value. An object is the dictionary it decodes to, one
    field per key; a number with a fraction or an exponent is kept as
    written. *)
#[warnings="-register-all"]
Inductive json :=
| JNull
| JBool (b : bool)
| JInt (z : Z)
| JFloat (lexeme : str)
| JStr (s : str)
| JArr (items : list json)
| JObj (fields : list (str * json)).

(** [d[key]] when the key is there. *)
Fixpoint field (key : str) (fields : list (str * json)) : option json :=
  match fields with
  | [] => None
  | (k, v) :: fields' => if bool_decide (k = key) then Some v else field key fields'
  end.

(** [isinstance(v, str)], [isinstance(v, list)], [isinstance(v, dict)] *)
Definition is_str (v : json) : bool := match v with JStr _ => true | _ => false end.
Definition is_list (v : json) : bool := match v with JArr _ => true | _ => false end.
Definition is_dict (v : json) : bool := match v with JObj _ => true | _ => false end.

(** ** The world the hook runs in *)

Inductive exn :=
| TimeoutExpired | OSError | IndexError | AttributeError | TypeError
| UnicodeDecodeError | RecursionError.

(** What [json.load(sys.stdin)] does: it returns the value the input
    decodes to, or raises [JSONDecodeError], or raises something else (the
    input is no text in the encoding of the stream, is nested too deep,
    cannot be read). *)
Inductive loaded :=
| Decoded (v : json)
| NotJSON
| LoadRaises (e : exn).

(** What [subprocess.run] does: the process completes, or the call raises. *)
Inductive run_result :=
| Completed (returncode : Z) (stdout stderr : str)
| Raises (e : exn).

Record World := {
  (** the payload on standard input *)
  stdin : loaded;
  (** [CLAUDE_PROJECT_DIR], or the working directory *)
  project_dir : str;
  (** [os.path.exists] *)
  path_exists : str -> bool;
  (** [git diff --cached --name-only] *)
  git_diff_cached : run_result;
  (** [./gradlew compileJava -q] and [mvn compile -q], each under its
      timeout of 90 seconds *)
  gradlew_compile : run_result;
  mvn_compile : run_result;
  (** the order in which the run goes through a set of names: it changes
      with the hash seed of the interpreter, and every name comes once *)
  set_order : gset str -> list str;
  set_order_perm : forall names, set_order names ≡ₚ elements names
}.

(** Results of code that may raise. *)
Inductive res (A : Type) :=
| Val (a : A)
| Exc (e : exn).
Arguments Val {A} a.
Arguments Exc {A} e.

#[export] Instance res_ret : MRet res := fun A a => Val a.
#[export] Instance res_bind : MBind res := fun A B f m =>
  match m with
  | Val a => f a
  | Exc e => Exc e
  end.

Definition subprocess_run (r : run_result) : res (Z * str * str) :=
  match r with
  | Completed rc out err => Val (rc, out, err)
  | Raises e => Exc e
  end.

(** [v.get(key, default)]: only a dictionary has the method. *)
Definition dict_get (v : json) (key : str) (default : json) : res json :=
  match v with
  | JObj fields => Val (from_option id default (field key fields))
  | _ => Exc AttributeError
  end.

(** [re.search(pattern, v)] takes a string and raises on any other value. *)
Definition re_subject (v : json) : res str :=
  match v with
  | JStr s => Val s
  | _ => Exc TypeError
  end.

(** ** The hook *)

Section Hook.
Context `{Unicode}.

(** [re.search(r'\bgit\s+commit\b', command)] *)
Definition git_commit_re : regex :=
  Cat WordB (Cat (lit (u "git")) (Cat (Rep1 isspace) (Cat (lit (u "commit")) WordB))).

Definition is_git_commit (command : str) : bool :=
  bool_decide (is_Some (re_search git_commit_re command)).

(** The command [main] hands to [is_git_commit], as the string the search
    runs on: [input_data.get("tool_input", {}).get("command", "")]. *)
Definition command_of (input_data : json) : res str :=
  tool_input ← dict_get input_data (u "tool_input") (JObj []);
  command ← dict_get tool_input (u "command") (JStr []);
  re_subject command.

Definition get_staged_files (w : World) : res (list str) :=
  '(returncode, stdout, _) ← subprocess_run (git_diff_cached w);
  if negb (returncode =? 0)%Z then mret []
  else mret (strip <$> filter (fun f => truthy (strip f)) (str_split 10 (strip stdout))).

(** The layer names the feature scan looks for. *)
Definition layer_names : list str :=
  [u "controller"; u "service"; u "repository"; u "dto"; u "entity"; u "mapper"].

Definition is_layer (part : str) : bool := bool_decide (part ∈ layer_names).

(** How the [for ... else] over [enumerate(parts)] ends: by its [break],
    after adding a name or not, or by running out of parts. *)
Inductive scan_exit :=
| Broke (added : option str)
| Exhausted.

(** [parts[i]], which raises out of range. *)
Definition index (parts : list str) (i : nat) : res str :=
  match parts !! i with
  | Some p => Val p
  | None => Exc IndexError
  end.

Fixpoint layer_scan (parts : list str) (i : nat) (rest : list str) : res scan_exit :=
  match rest with
  | [] => mret Exhausted
  | part :: rest' =>
    if is_layer part then
      if (0 <? i)%nat then
        before ← index parts (i - 1);
        mret (Broke (Some (lower before)))
      else mret (Broke None)
    else layer_scan parts (S i) rest'
  end.

(** [Path(f).name]: the last component that is neither empty nor a dot. *)
Definition path_name (f : str) : str :=
  default [] (last (filter (fun p => p ≠ [] ∧ p ≠ u ".") (str_split 47 f))).

(** [name.rfind('.')] *)
Fixpoint rfind (c : char) (s : str) : option nat :=
  match s with
  | [] => None
  | a :: s' =>
    match rfind c s' with
    | Some i => Some (S i)
    | None => if char_eqb a c then Some O else None
    end
  end.

(** [Path(f).stem] *)
Definition path_stem (f : str) : str :=
  let name := path_name f in
  match rfind 46 name with
  | Some i => if (0 <? i)%nat && (i <? length name - 1)%nat then take i name else name
  | None => name
  end.

(** [re.match(r'^([A-Z][a-z]+)', filename)] *)
Definition capital_word_re : regex :=
  Cat Bol (Cat (Cls (in_range 65 90)) (Rep1 (in_range 97 122))).

(** The name one file contributes, by one round of the loop. *)
Definition feature_of (f : str) : res (option str) :=
  let parts := str_split 47 f in
  exit ← layer_scan parts 0 parts;
  match exit with
  | Broke added => mret added
  | Exhausted =>
    let filename := path_stem f in
    match re_match capital_word_re filename with
    | Some group1 => mret (Some (lower group1))
    | None => mret None
    end
  end.

Fixpoint extract_feature_names_from (feature_names : gset str) (java_files : list str)
    : res (gset str) :=
  match java_files with
  | [] => mret feature_names
  | f :: java_files' =>
    added ← feature_of f;
    extract_feature_names_from
      (match added with Some name => feature_names ∪ {[name]} | None => feature_names end)
      java_files'
  end.

Definition extract_feature_names (java_files : list str) : res (gset str) :=
  extract_feature_names_from ∅ java_files.

(** [os.path.join(a, *p)] on POSIX. *)
Definition path_join2 (path b : str) : str :=
  if startswith (u "/") b then b
  else if negb (truthy path) || endswith (u "/") path then path ++ b
  else path ++ u "/" ++ b.

Definition os_path_join (a : str) (p : list str) : str := foldl path_join2 a p.

Definition gradle_failed : str := u "Gradle 빌드 실패:" ++ nl.
Definition maven_failed : str := u "Maven 빌드 실패:" ++ nl.

Definition check_build (w : World) : res (option str) :=
  let gradlew := os_path_join (project_dir w) [u "gradlew"] in
  if path_exists w gradlew then
    '(returncode, _, stderr) ← subprocess_run (gradlew_compile w);
    if negb (returncode =? 0)%Z then mret (Some (gradle_failed ++ slice_to 300 stderr))
    else mret None
  else
    let pom := os_path_join (project_dir w) [u "pom.xml"] in
    if path_exists w pom then
      '(returncode, _, stderr) ← subprocess_run (mvn_compile w);
      if negb (returncode =? 0)%Z then mret (Some (maven_failed ++ slice_to 300 stderr))
      else mret None
    else mret None.

Definition catalog_missing_msg : str :=
  u "📄 ERROR_MESSAGES.md가 존재하지 않습니다 → src/docs/ERROR_MESSAGES.md 생성 필요".

Definition catalog_unstaged_msg : str :=
  u "⚠️ ERROR_MESSAGES.md가 이번 커밋에 포함되지 않았습니다. 새 에러 코드 추가가 필요하지 않은지 확인하세요".

Definition spec_line (feature : str) : str :=
  u "  - 기능명세서: src/docs/" ++ feature ++ u "_기능명세서.md".

Definition arch_line (feature : str) : str :=
  u "  - 아키텍처 설명서: src/docs/architecture/" ++ feature ++ u ".md".

Definition guide_line (feature : str) : str :=
  u "  - 사용자매뉴얼: src/docs/user-guide/" ++ feature ++ u ".md".

Definition feature_heading (feature : str) : str :=
  u "📁 기능 '" ++ feature ++ u "' 관련 문서 누락:" ++ nl.

Definition docs_dir_of (w : World) : str := os_path_join (project_dir w) [u "src"; u "docs"].

(** The list [missing] at the end of one round of the loop over the
    features. *)
Definition missing_docs (w : World) (feature : str) : list str :=
  let docs_dir := docs_dir_of w in
  let spec_patterns :=
    [os_path_join docs_dir [feature ++ u "_기능명세서.md"];
     os_path_join docs_dir [capitalize feature ++ u "_기능명세서.md"]] in
  let missing := [] in
  let missing :=
    if negb (existsb (path_exists w) spec_patterns)
    then missing ++ [spec_line feature] else missing in
  let arch_path := os_path_join docs_dir [u "architecture"; feature ++ u ".md"] in
  let missing :=
    if negb (path_exists w arch_path)
    then missing ++ [arch_line feature] else missing in
  let guide_path := os_path_join docs_dir [u "user-guide"; feature ++ u ".md"] in
  let missing :=
    if negb (path_exists w guide_path)
    then missing ++ [guide_line feature] else missing in
  missing.

(** One round of the loop over the features. *)
Definition check_feature (w : World) (errors : list str) (feature : str) : list str :=
  let missing := missing_docs w feature in
  if truthy missing
  then errors ++ [feature_heading feature ++ str_join nl missing]
  else errors.

Definition check_docs (w : World) (feature_names : gset str) (staged_files : list str)
    : list str :=
  let docs_dir := docs_dir_of w in
  let errors := [] in
  let error_messages_path := os_path_join docs_dir [u "ERROR_MESSAGES.md"] in
  let errors :=
    if negb (path_exists w error_messages_path) then errors ++ [catalog_missing_msg]
    else if negb (existsb (contains (u "ERROR_MESSAGES.md")) staged_files)
    then errors ++ [catalog_unstaged_msg]
    else errors in
  foldl (check_feature w) errors (set_order w feature_names).

Definition no_staged_docs_msg : str :=
  u "⚠️ 이번 커밋에 src/docs/ 하위 문서가 하나도 포함되지 않았습니다." ++ nl ++
  u "   기능 코드를 변경했다면 관련 문서도 함께 커밋하세요.".

Definition check_staged_docs (staged_files : list str) : option str :=
  let doc_files := filter (fun f => startswith (u "src/docs/") f) staged_files in
  if negb (truthy doc_files) then Some no_staged_docs_msg else None.

(** How a run of the hook ends. *)
Inductive Outcome :=
| Allow                 (** [sys.exit(0)], nothing written *)
| Deny (reason : str)   (** [deny(reason)]: the decision is written, then [sys.exit(0)] *)
| Rejected              (** [sys.exit(1)]: the payload is not JSON *)
| Uncaught (e : exn).   (** an exception leaves [main] *)

Definition rule : str := u "━━━━━━━━━━━━━━━━━━━━━━━━━━━━━" ++ nl.

Definition header (w : World) (java_changes : list str) (feature_names : gset str) : str :=
  u "🚫 커밋 전 문서 체크리스트 미완료" ++ nl ++
  rule ++
  u "변경된 Java 파일: " ++ str_of_nat (length java_changes) ++ u "개" ++ nl ++
  u "감지된 기능: " ++
  (if bool_decide (feature_names ≠ ∅) then str_join (u ", ") (set_order w feature_names)
   else u "추출 실패") ++ nl ++
  rule ++ nl.

Definition footer : str :=
  nl ++ nl ++ rule ++
  u "📋 문서를 작성/업데이트한 후 다시 커밋하세요." ++ nl ++
  u "   참고: CLAUDE.md의 Feature Development Completion Checklist".

(** The file counts as a change of Java source. *)
Definition is_java_change (f : str) : bool :=
  endswith (u ".java") f && contains (u "src/main") f && negb (contains (u "test") (lower f)).

(** The list [all_errors] when [main] reaches its verdict. *)
Definition all_errors (w : World) (staged_files : list str)
    (build_error : option str) (feature_names : gset str) : list str :=
  let all_errors := [] in
  let all_errors :=
    if truthy_opt build_error
    then all_errors ++ [u "❌ " ++ default [] build_error]
    else all_errors in
  let all_errors :=
    if bool_decide (feature_names ≠ ∅)
    then all_errors ++ check_docs w feature_names staged_files
    else all_errors in
  let staged_warning := check_staged_docs staged_files in
  if truthy_opt staged_warning
  then all_errors ++ [default [] staged_warning]
  else all_errors.

Definition report (w : World) (java_changes : list str) (feature_names : gset str)
    (all_errors : list str) : str :=
  header w java_changes feature_names ++ str_join (nl ++ nl) all_errors ++ footer.

Definition main (w : World) : Outcome :=
  match stdin w with
  | NotJSON => Rejected
  | LoadRaises e => Uncaught e
  | Decoded input_data =>
    match command_of input_data with
    | Exc e => Uncaught e
    | Val command =>
      if negb (is_git_commit command) then Allow
      else
        match get_staged_files w with
        | Exc e => Uncaught e
        | Val staged_files =>
          if negb (truthy staged_files) then Allow
          else
            let java_changes := filter (fun f => is_java_change f) staged_files in
            if negb (truthy java_changes) then Allow
            else
              match check_build w with
              | Exc e => Uncaught e
              | Val build_error =>
                match extract_feature_names java_changes with
                | Exc e => Uncaught e
                | Val feature_names =>
                  let all_errors := all_errors w staged_files build_error feature_names in
                  if truthy all_errors
                  then Deny (report w java_changes feature_names all_errors)
                  else Allow
                end
              end
        end
    end
  end.

End Hook.

(** * The handoff writer (hooks/generate_handoff.py)

    The script runs from top to bottom: it reads the payload and the
    transcript, gathers the files the last messages changed and what the
    assistant said last, and writes the same note to two files. *)

Module Handoff.

Inductive exn := JSONDecodeError | AttributeError | TypeError | OSError.

(** Results of code that may raise. [Unmodelled] stands for the runs that
    depend on what is left out here: the value of a float, the text of a
    list, of a dictionary or of a float, a set that holds numbers, a number
    used as a file descriptor. *)
Inductive result (A : Type) :=
| Ok (a : A)
| Raise (e : exn)
| Unmodelled.
Arguments Ok {A} a.
Arguments Raise {A} e.
Arguments Unmodelled {A}.

#[export] Instance result_ret : MRet result := fun A a => Ok a.
#[export] Instance result_bind : MBind result := fun A B f m =>
  match m with
  | Ok a => f a
  | Raise e => Raise e
  | Unmodelled => Unmodelled
  end.

(** [v.get(key, default)]: only a dictionary has the method. *)
Definition get (v : json) (key : str) (default : json) : result json :=
  match v with
  | JObj fields => Ok (from_option id default (field key fields))
  | _ => Raise AttributeError
  end.

(** [v == s] for a string [s]. *)
Definition eq_str (v : json) (s : str) : bool :=
  match v with
  | JStr t => bool_decide (t = s)
  | _ => false
  end.

(** Truth value of [v] in a condition. *)
Definition truth (v : json) : result bool :=
  match v with
  | JNull => Ok false
  | JBool b => Ok b
  | JInt z => Ok (negb (z =? 0)%Z)
  | JFloat _ => Unmodelled
  | JStr s => Ok (truthy s)
  | JArr items => Ok (truthy items)
  | JObj fields => Ok (truthy fields)
  end.

(** [str(z)] for an integer. *)
Definition str_of_Z (z : Z) : str :=
  if (z <? 0)%Z then u "-" ++ str_of_nat (Z.to_nat (- z)) else str_of_nat (Z.to_nat z).

(** The text of [v] in an f-string. *)
Definition format (v : json) : result str :=
  match v with
  | JNull => Ok (u "None")
  | JBool true => Ok (u "True")
  | JBool false => Ok (u "False")
  | JInt z => Ok (str_of_Z z)
  | JStr s => Ok s
  | JFloat _ | JArr _ | JObj _ => Unmodelled
  end.

(** What the script does to the world. *)
Inductive effect :=
| MakeDirs (path : str)
| WriteFile (path content : str).

Record World := {
  (** the payload on standard input, [None] when it is not JSON *)
  stdin : option json;
  (** [CLAUDE_PROJECT_DIR], or the working directory *)
  project_dir : str;
  (** [os.makedirs(path, exist_ok=True)]: the exception it raises, if any *)
  makedirs : str -> option exn;
  (** [os.path.exists] *)
  path_exists : str -> bool;
  (** opening a file and reading it line by line: what [json.loads] makes
      of each line, [None] when it raises *)
  read_lines : str -> result (list (option json));
  (** [now.strftime("%Y.%m.%d %H:%M")] and [now.strftime("%Y%m%d_%H%M%S")] *)
  timestamp : str;
  filename : str;
  (** opening a file for writing and writing a text to it: the exception
      raised, if any *)
  write_file : str -> str -> option exn
}.

(** The loop over the lines: a line that does not decode is passed over. *)
Definition parse_lines (lines : list (option json)) : list json :=
  foldl (fun messages line =>
           match line with
           | Some msg => messages ++ [msg]
           | None => messages
           end) [] lines.

(** The list [messages] once the transcript is read. *)
Definition load_messages (w : World) (transcript_path : json) : result (list json) :=
  given ← truth transcript_path;
  if (given : bool) then
    match transcript_path with
    | JStr path =>
      if path_exists w path then
        lines ← read_lines w path;
        mret (parse_lines lines)
      else mret []
    | JArr _ | JObj _ => Raise TypeError
    | _ => Unmodelled
    end
  else mret [].

(** [l[-n:]] for a positive [n]. *)
Definition last_n {A} (n : nat) (l : list A) : list A := drop (length l - n) l.

(** The list [assistant_msgs]. *)
Fixpoint assistant_msgs (recent_messages : list json) : result (list json) :=
  match recent_messages with
  | [] => mret []
  | m :: rest =>
    role ← get m (u "role") JNull;
    keep ← (if eq_str role (u "assistant")
            then content ← get m (u "content") JNull; mret (is_str content)
            else mret false);
    kept ← assistant_msgs rest;
    mret (if (keep : bool) then m :: kept else kept)
  end.

(** One round of the loop over the blocks of a message. *)
Definition add_block (changed_files : gset str) (block : json) : result (gset str) :=
  if is_dict block then
    type ← get block (u "type") JNull;
    if eq_str type (u "tool_use") then
      tool_input ← get block (u "input") (JObj []);
      file_path ← get tool_input (u "file_path") (JStr []);
      given ← truth file_path;
      if (given : bool) then
        match file_path with
        | JStr path => mret (changed_files ∪ {[path]})
        | JArr _ | JObj _ => Raise TypeError
        | _ => Unmodelled
        end
      else mret changed_files
    else mret changed_files
  else mret changed_files.

Fixpoint add_blocks (changed_files : gset str) (blocks : list json) : result (gset str) :=
  match blocks with
  | [] => mret changed_files
  | block :: blocks' =>
    changed_files' ← add_block changed_files block;
    add_blocks changed_files' blocks'
  end.

(** One round of the loop over the last messages. *)
Definition add_message (changed_files : gset str) (m : json) : result (gset str) :=
  role ← get m (u "role") JNull;
  if eq_str role (u "assistant") then
    content ← get m (u "content") (JArr []);
    match content with
    | JArr blocks => add_blocks changed_files blocks
    | _ => mret changed_files
    end
  else mret changed_files.

Fixpoint add_messages (changed_files : gset str) (recent_messages : list json)
    : result (gset str) :=
  match recent_messages with
  | [] => mret changed_files
  | m :: rest =>
    changed_files' ← add_message changed_files m;
    add_messages changed_files' rest
  end.

(** The set [changed_files]. *)
Definition changed_files_of (recent_messages : list json) : result (gset str) :=
  add_messages ∅ recent_messages.

(** Strings compare by code points, the shorter first among a string and
    its extensions. *)
Fixpoint str_leb (a b : str) : bool :=
  match a, b with
  | [], _ => true
  | _ :: _, [] => false
  | x :: a', y :: b' =>
    if x <? y then true else if y <? x then false else str_leb a' b'
  end.

Definition str_le (a b : str) : Prop := str_leb a b = true.

#[export] Instance str_le_dec a b : Decision (str_le a b).
Proof. unfold str_le. apply _. Defined.

(** [sorted(changed_files)] *)
Definition sorted (changed_files : gset str) : list str :=
  merge_sort str_le (elements changed_files).

(** The lines under the heading of the changed files. *)
Definition files_lines (changed_files : gset str) : str :=
  if bool_decide (changed_files ≠ ∅)
  then str_join nl ((fun f => u "- `" ++ f ++ u "`") <$> sorted changed_files)
  else u "- 없음".

(** One line of the summary: [m.get("content", "")[:200]] after a dash. *)
Definition summary_line (m : json) : result str :=
  content ← get m (u "content") (JStr []);
  match content with
  | JStr s => mret (u "- " ++ take 200 s)
  | _ => Unmodelled
  end.

(** The lines under the heading of the summary. *)
Definition summary_lines (assistant_msgs : list json) : result str :=
  lines ← mapM summary_line (last_n 5 assistant_msgs);
  mret (str_join nl lines).

(** The text [handoff]. *)
Definition handoff_text (w : World) (input_data trigger : json) (messages : list json)
    (changed_files : gset str) (assistant_msgs : list json) : result str :=
  trigger_text ← format trigger;
  session ← get input_data (u "session_id") (JStr (u "N/A"));
  session_text ← format session;
  summary ← summary_lines assistant_msgs;
  mret (u "# 인수인계 기록" ++ nl ++
        nl ++
        u "## " ++ timestamp w ++ u " (trigger: " ++ trigger_text ++ u ")" ++ nl ++
        nl ++
        u "### 세션 정보" ++ nl ++
        u "- 세션 ID: " ++ session_text ++ nl ++
        u "- 총 메시지 수: " ++ str_of_nat (length messages) ++ nl ++
        u "- 트리거: " ++
          (if eq_str trigger (u "manual") then u "수동 /compact" else u "자동 컴팩트") ++ nl ++
        nl ++
        u "### 변경된 파일" ++ nl ++
        files_lines changed_files ++ nl ++
        nl ++
        u "### 최근 대화 요약" ++ nl ++
        summary ++ nl ++
        nl ++
        u "### 다음 작업" ++ nl ++
        u "- [ ] (수동 작성 필요)" ++ nl ++
        nl ++
        u "### 주의사항" ++ nl ++
        u "- (수동 작성 필요)" ++ nl).

(** How a run ends. *)
Inductive outcome :=
| Done
| Raised (e : exn)
| Beyond.

(** The text to write, from the payload on: everything between the making
    of the directory and the two writes. *)
Definition compose (w : World) (input_data transcript_path trigger : json) : result str :=
  messages ← load_messages w transcript_path;
  let recent_messages := last_n 80 messages in
  assistant ← assistant_msgs recent_messages;
  changed_files ← changed_files_of recent_messages;
  handoff_text w input_data trigger messages changed_files assistant.

Definition handoff_dir (w : World) : str :=
  os_path_join (project_dir w) [u "docs"; u "handoffs"].

Definition latest_path (w : World) : str := os_path_join (project_dir w) [u "HANDOFF.md"].

Definition archive_path (w : World) : str :=
  os_path_join (handoff_dir w) [u "handoff_" ++ filename w ++ u ".md"].

Definition stopped {A} (r : result A) : outcome :=
  match r with
  | Ok _ => Done
  | Raise e => Raised e
  | Unmodelled => Beyond
  end.

(** The script: what it did, in order, and how it ended. *)
Definition run (w : World) : list effect * outcome :=
  match stdin w with
  | None => ([], Raised JSONDecodeError)
  | Some input_data =>
    match get input_data (u "transcript_path") (JStr []) with
    | Ok transcript_path =>
      match get input_data (u "trigger") (JStr (u "unknown")) with
      | Ok trigger =>
        match makedirs w (handoff_dir w) with
        | Some e => ([], Raised e)
        | None =>
          match compose w input_data transcript_path trigger with
          | Ok handoff =>
            match write_file w (latest_path w) handoff with
            | Some e => ([MakeDirs (handoff_dir w)], Raised e)
            | None =>
              match write_file w (archive_path w) handoff with
              | Some e =>
                ([MakeDirs (handoff_dir w); WriteFile (latest_path w) handoff], Raised e)
              | None =>
                ([MakeDirs (handoff_dir w); WriteFile (latest_path w) handoff;
                  WriteFile (archive_path w) handoff], Done)
              end
            end
          | r => ([MakeDirs (handoff_dir w)], stopped r)
          end
        end
      | r => ([], stopped r)
      end
    | r => ([], stopped r)
    end
  end.



(** The message is one of the assistant whose content is a text. *)
Definition says_text (m : json) : bool :=
  match m with
  | JObj fields =>
    match field (u "role") fields, field (u "content") fields with
    | Some role, Some (JStr _) => eq_str role (u "assistant")
    | _, _ => false
    end
  | _ => false
  end.

(** Two transcripts the script cannot tell apart: as many messages, and the
    same last eighty. *)
Definition same_tail (r1 r2 : result (list (option json))) : Prop :=
  r1 = r2 \/
  exists lines1 lines2,
    r1 = Ok lines1 /\ r2 = Ok lines2 /\
    length (parse_lines lines1) = length (parse_lines lines2) /\
    last_n 80 (parse_lines lines1) = last_n 80 (parse_lines lines2).

(** Sample transcripts and worlds. *)
Definition tool_use (path : str) : json :=
  JObj [(u "type", JStr (u "tool_use")); (u "input", JObj [(u "file_path", JStr path)])].

Definition said (role : str) (content : json) : json :=
  JObj [(u "role", JStr role); (u "content", content)].

(** A question, a line that does not decode, two edits and an answer. *)
Definition sample_lines : list (option json) :=
  [Some (said (u "user") (JStr (u "rename the module")));
   None;
   Some (said (u "assistant")
           (JArr [tool_use (u "src/b.py"); JObj [(u "type", JStr (u "text"))];
                  tool_use (u "src/a.py"); tool_use (u "src/b.py")]));
   Some (said (u "assistant") (JStr (u "renamed in both files")))].

(** The same with a line that decodes to a list. *)
Definition broken_lines : list (option json) := sample_lines ++ [Some (JArr [])].

(** The same as the sample with lines that do not decode in between. *)
Definition noisy_lines : list (option json) :=
  None :: None :: sample_lines ++ [None].

Definition sample_world (lines : list (option json)) : World :=
  {| stdin := Some (JObj [(u "transcript_path", JStr (u "/tmp/t.jsonl"));
                          (u "trigger", JStr (u "manual"));
                          (u "session_id", JStr (u "s-1"))]);
     project_dir := u "/repo";
     makedirs := fun _ => None;
     path_exists := fun _ => true;
     read_lines := fun _ => Ok lines;
     timestamp := u "2026.01.02 03:04";
     filename := u "20260102_030405";
     write_file := fun _ _ => None |}.

End Handoff.

(** * Vocabulary of the properties *)

(** [sub] occurs in [s]. *)
Definition occurs_in (sub s : str) : Prop := exists a b, s = a ++ sub ++ b.

(** The character before the text that follows [m], [prev] being the one
    before [m]. *)
Definition last_char (prev : option char) (m : str) : option char :=
  match last m with
  | Some c => Some c
  | None => prev
  end.

(** The longest prefix of [s] whose characters are all in the class [p]. *)
Fixpoint leading (p : char -> bool) (s : str) : str :=
  match s with
  | c :: s' => if p c then c :: leading p s' else []
  | [] => []
  end.

(** The leading capitalised word of a name: an upper-case letter and the
    lower-case letters after it, at least one. *)
Definition capital_word (s : str) : option str :=
  match s with
  | a :: b :: t =>
    if in_range 65 90 a && in_range 97 122 b
    then Some (a :: b :: leading (in_range 97 122) t)
    else None
  | _ => None
  end.

Section Vocabulary.
Context `{Unicode}.

(** [matches r prev m rest]: [r] matches exactly the text [m], which stands
    between the character [prev] and the text [rest]. *)
Fixpoint matches (r : regex) (prev : option char) (m rest : str) : Prop :=
  match r with
  | Eps => m = []
  | Chr c => m = [c]
  | Cls p => exists a, m = [a] /\ p a = true
  | Rep1 p => m <> [] /\ Forall (fun a => p a = true) m
  | WordB => m = [] /\ is_word_at prev <> is_word_at (head rest)
  | Bol => m = [] /\ prev = None
  | Cat r1 r2 =>
    exists m1 m2, m = m1 ++ m2 /\ matches r1 prev m1 (m2 ++ rest) /\
                  matches r2 (last_char prev m1) m2 rest
  end.

(** The command names the commit as whole words: [git], white space,
    [commit], with no word character right before or right after. *)
Definition names_commit (command : str) : Prop :=
  exists pre ws post,
    command = pre ++ u "git" ++ ws ++ u "commit" ++ post /\
    ws <> [] /\ Forall (fun c => isspace c = true) ws /\
    is_word_at (last pre) = false /\ is_word_at (head post) = false.

(** No part is a layer name. *)
Definition no_layer (parts : list str) : Prop :=
  Forall (fun part => is_layer part = false) parts.

(** The names a list of files contributes. *)
Definition contributed (java_files : list str) (name : str) : Prop :=
  exists f, f ∈ java_files /\ feature_of f = Val (Some name).

(** The payload decodes and its command, or the empty default, is the
    string [command]. *)
Definition payload_command (w : World) (command : str) : Prop :=
  exists input_data, stdin w = Decoded input_data /\ command_of input_data = Val command.

(** The run reaches the checks: the command is a commit, and
    [java_changes], the Java sources among the staged files, is not
    empty. *)
Definition policy_run (w : World) (staged_files java_changes : list str) : Prop :=
  (exists command, payload_command w command /\ is_git_commit command = true) /\
  get_staged_files w = Val staged_files /\
  java_changes = filter (fun f => is_java_change f) staged_files /\
  java_changes <> [].

(** The path of the error catalog. *)
Definition catalog_path (w : World) : str :=
  os_path_join (docs_dir_of w) [u "ERROR_MESSAGES.md"].

(** The entries of [check_docs] about the error catalog. *)
Definition catalog_check (w : World) (staged_files : list str) : list str :=
  if negb (path_exists w (catalog_path w)) then [catalog_missing_msg]
  else if negb (existsb (contains (u "ERROR_MESSAGES.md")) staged_files)
  then [catalog_unstaged_msg]
  else [].

(** The entry of [check_docs] about one feature. *)
Definition feature_entry (w : World) (feature : str) : option str :=
  match missing_docs w feature with
  | [] => None
  | missing => Some (feature_heading feature ++ str_join nl missing)
  end.

(** The build descriptors and the documents of a feature, as paths. *)
Definition gradlew_path (w : World) : str := os_path_join (project_dir w) [u "gradlew"].

Definition pom_path (w : World) : str := os_path_join (project_dir w) [u "pom.xml"].

Definition spec_path (w : World) (name : str) : str :=
  os_path_join (docs_dir_of w) [name ++ u "_기능명세서.md"].

Definition arch_path (w : World) (feature : str) : str :=
  os_path_join (docs_dir_of w) [u "architecture"; feature ++ u ".md"].

Definition guide_path (w : World) (feature : str) : str :=
  os_path_join (docs_dir_of w) [u "user-guide"; feature ++ u ".md"].

(** The character, if any, is white space. *)
Definition is_space_at (o : option char) : bool :=
  match o with Some c => isspace c | None => false end.

(** The words of a command line: its longest runs of characters that are
    no white space. *)
Fixpoint words (s : str) : list str :=
  match s with
  | [] => []
  | c :: s' =>
    if isspace c then words s'
    else
      match s' with
      | d :: _ =>
        if isspace d then [c] :: words s'
        else
          match words s' with
          | word :: rest => (c :: word) :: rest
          | [] => [[c]]
          end
      | [] => [[c]]
      end
  end.

(** The feature lacks one document and has the other two: [path] is the
    missing one as the report writes it, after [label]. The specification
    is missing when it is there under neither name. *)
Definition lacks_only (w : World) (feature label path : str) : Prop :=
  (path_exists w (spec_path w feature) ||
     path_exists w (spec_path w (capitalize feature)) = false /\
   path_exists w (arch_path w feature) = true /\
   path_exists w (guide_path w feature) = true /\
   label = u "  - 기능명세서: " /\
   path = u "src/docs/" ++ feature ++ u "_기능명세서.md") \/
  (path_exists w (spec_path w feature) ||
     path_exists w (spec_path w (capitalize feature)) = true /\
   path_exists w (arch_path w feature) = false /\
   path_exists w (guide_path w feature) = true /\
   label = u "  - 아키텍처 설명서: " /\
   path = u "src/docs/architecture/" ++ feature ++ u ".md") \/
  (path_exists w (spec_path w feature) ||
     path_exists w (spec_path w (capitalize feature)) = true /\
   path_exists w (arch_path w feature) = true /\
   path_exists w (guide_path w feature) = false /\
   label = u "  - 사용자매뉴얼: " /\
   path = u "src/docs/user-guide/" ++ feature ++ u ".md").

(** The documents of a feature as the report writes them. *)
Definition document_paths (feature : str) : list str :=
  [u "src/docs/" ++ feature ++ u "_기능명세서.md";
   u "src/docs/architecture/" ++ feature ++ u ".md";
   u "src/docs/user-guide/" ++ feature ++ u ".md"].

End Vocabulary.

(** ** Worlds the properties are tried on *)

(** A file system that holds the listed paths and nothing else. *)
Definition files (paths : list str) : str -> bool := fun p => bool_decide (p ∈ paths).

Definition attendance_java : str :=
  u "src/main/java/com/erp/attendance/controller/AttendanceController.java".

Definition attestation_java : str :=
  u "src/main/java/com/erp/attestation/AuditController.java".

Definition service_java : str := u "service/src/main/java/Payroll.java".

Definition util_java : str := u "src/main/java/util.java".

Definition catalog_doc : str := u "/repo/src/docs/ERROR_MESSAGES.md".

Definition spec_doc : str := u "/repo/src/docs/Attendance_기능명세서.md".

Definition arch_doc : str := u "/repo/src/docs/architecture/attendance.md".

Definition guide_doc : str := u "/repo/src/docs/user-guide/attendance.md".

(** The payload of a shell command. *)
Definition payload (command : str) : json :=
  JObj [(u "tool_name", JStr (u "Bash"));
        (u "tool_input", JObj [(u "command", JStr command)])].

(** A command in [/repo] with the given files on disk, the given output of
    the staged-file query and the given run of the Gradle wrapper. *)
Definition command_world (command : str) (on_disk : list str) (staged : str)
    (gradle : run_result) : World :=
  {| stdin := Decoded (payload command);
     project_dir := u "/repo";
     path_exists := files on_disk;
     git_diff_cached := Completed 0 staged [];
     gradlew_compile := gradle;
     mvn_compile := Completed 0 [] [];
     set_order := elements;
     set_order_perm := fun names => Permutation_refl (elements names) |}.

Definition commit_world : list str -> str -> run_result -> World :=
  command_world (u "git commit -m wip").

(** Every document of the feature is there, none is staged, no build. *)
Definition documented_world : World :=
  commit_world [catalog_doc; spec_doc; arch_doc; guide_doc]
    (attendance_java ++ nl) (Completed 0 [] []).

(** No catalog, a Java file that names no feature, a staged document. *)
Definition featureless_world : World :=
  commit_world [] (util_java ++ nl ++ u "src/docs/notes.md" ++ nl) (Completed 0 [] []).

(** No document at all. *)
Definition undocumented_world : World :=
  commit_world [] (attendance_java ++ nl) (Completed 0 [] []).

(** Only the user guide is missing. *)
Definition guideless_world : World :=
  commit_world [catalog_doc; spec_doc; arch_doc]
    (attendance_java ++ nl) (Completed 0 [] []).

(** The Gradle wrapper is there and the compilation runs out of time. *)
Definition timeout_world : World :=
  commit_world [u "/repo/gradlew"; catalog_doc; spec_doc; arch_doc; guide_doc]
    (attendance_java ++ nl) (Raises TimeoutExpired).

(** The Gradle wrapper is there and the compilation fails. *)
Definition broken_build_world : World :=
  commit_world [u "/repo/gradlew"; catalog_doc; spec_doc; arch_doc; guide_doc]
    (attendance_java ++ nl ++ u "src/docs/ERROR_MESSAGES.md" ++ nl)
    (Completed 1 [] (u "AttendanceController.java:12: error: ';' expected")).

(** The Gradle wrapper is there and the compilation fails with an error
    stream of 600 characters. *)
Definition long_stderr : str :=
  mjoin (replicate 12 (u "AttendanceController.java:12: error: ';' expected" ++ nl)).

Definition verbose_build_world : World :=
  commit_world [u "/repo/gradlew"; catalog_doc; spec_doc; arch_doc; guide_doc]
    (attendance_java ++ nl ++ u "src/docs/ERROR_MESSAGES.md" ++ nl)
    (Completed 1 [] long_stderr).

(** A commit in another directory, and the writing of a commit graph, each
    with the Java file staged and no document on disk. *)
Definition elsewhere_world : World :=
  command_world (u "git -C /repo commit -m wip") [] (attendance_java ++ nl)
    (Completed 0 [] []).

Definition commit_graph_world : World :=
  command_world (u "git commit-graph write") [] (attendance_java ++ nl)
    (Completed 0 [] []).

(** The staged-file query fails. *)
Definition no_repository_world : World :=
  {| stdin := Decoded (payload (u "git commit -m wip"));
     project_dir := u "/repo";
     path_exists := files [];
     git_diff_cached := Completed 128 [] (u "fatal: not a git repository");
     gradlew_compile := Completed 0 [] [];
     mvn_compile := Completed 0 [] [];
     set_order := elements;
     set_order_perm := fun names => Permutation_refl (elements names) |}.

(** The command is no commit. *)
Definition status_world : World :=
  command_world (u "cat legit commits.txt") [] (attendance_java ++ nl) (Completed 0 [] []).

(** Any outcome of reading the payload, where every call of a tool would
    raise. *)
Definition stdin_world (read : loaded) : World :=
  {| stdin := read;
     project_dir := u "/repo";
     path_exists := files [];
     git_diff_cached := Raises OSError;
     gradlew_compile := Raises OSError;
     mvn_compile := Raises OSError;
     set_order := elements;
     set_order_perm := fun names => Permutation_refl (elements names) |}.

Definition payload_world (input_data : json) : World := stdin_world (Decoded input_data).

(** Only documents are staged, and the build tool would run out of time. *)
Definition docs_only_world : World :=
  commit_world [u "/repo/gradlew"]
    (u "src/docs/notes.md" ++ nl ++ u "README.md" ++ nl) (Raises TimeoutExpired).

(** Every document of the feature is there and the catalog is staged with
    the Java file. *)
Definition complete_world : World :=
  commit_world [catalog_doc; spec_doc; arch_doc; guide_doc]
    (attendance_java ++ nl ++ u "src/docs/ERROR_MESSAGES.md" ++ nl) (Completed 0 [] []).

(** A decidable statement about concrete data, settled by evaluation. *)
Ltac decide_by_evaluation :=
  apply (bool_decide_unpack _); vm_compute; exact I.

(** The run of a concrete world reaches the checks: by evaluation. *)
Ltac run_by_evaluation :=
  split; [eexists; split; [eexists; split; reflexivity | by vm_compute]
         | split; [by vm_compute | split; [by vm_compute | discriminate]]].

(** * Properties *)

(** ** Strings *)

Lemma char_eqb_eq a b : char_eqb a b = true <-> a = b.
Proof. apply N.eqb_eq. Qed.

Lemma startswith_spec p s : startswith p s = true <-> exists t, s = p ++ t.
Proof.
  revert s. induction p as [|a p IH]; intros s; simpl.
  - split; eauto.
  - destruct s as [|b s].
    + split; [discriminate | intros [t Ht]; discriminate].
    + rewrite andb_true_iff, char_eqb_eq, IH. split.
      * intros [-> [t ->]]. eauto.
      * intros [t Ht]. injection Ht as -> ->. eauto.
Qed.

Lemma endswith_spec p s : endswith p s = true <-> exists t, s = t ++ p.
Proof.
  unfold endswith. rewrite startswith_spec. split.
  - intros [t Ht]. exists (reverse t).
    apply (f_equal reverse) in Ht.
    rewrite reverse_involutive, reverse_app, reverse_involutive in Ht. done.
  - intros [t ->]. exists (reverse t). by rewrite reverse_app.
Qed.

Lemma contains_spec sub s : contains sub s = true <-> occurs_in sub s.
Proof.
  unfold occurs_in. induction s as [|c s IH]; simpl.
  - rewrite orb_false_r, startswith_spec. split.
    + intros [t Ht]. exists [], t. done.
    + intros (a & b & Hab). destruct a; [|discriminate]. eauto.
  - rewrite orb_true_iff, startswith_spec, IH. split.
    + intros [[t Ht] | (a & b & ->)].
      * exists [], t. done.
      * exists (c :: a), b. done.
    + intros (a & b & Hab). destruct a as [|c' a].
      * left. eauto.
      * right. injection Hab as -> ->. eauto.
Qed.

Lemma contains_false sub s : contains sub s = false <-> ~ occurs_in sub s.
Proof. rewrite <- contains_spec. destruct (contains sub s); naive_solver. Qed.

Lemma occurs_in_refl s : occurs_in s s.
Proof. exists [], []. by rewrite app_nil_r. Qed.

Lemma occurs_in_trans x y z : occurs_in x y -> occurs_in y z -> occurs_in x z.
Proof.
  intros (a & b & ->) (c & d & ->). exists (c ++ a), (b ++ d).
  by rewrite <- !app_assoc.
Qed.

Lemma occurs_in_app_l x y z : occurs_in x y -> occurs_in x (y ++ z).
Proof. intros (a & b & ->). exists a, (b ++ z). by rewrite <- !app_assoc. Qed.

Lemma occurs_in_app_r x y z : occurs_in x z -> occurs_in x (y ++ z).
Proof. intros (a & b & ->). exists (y ++ a), b. by rewrite <- !app_assoc. Qed.

Lemma occurs_in_join sep e l : e ∈ l -> occurs_in e (str_join sep l).
Proof.
  induction l as [|x l IH]; [by intros ?%elem_of_nil|].
  intros [->|Hin]%elem_of_cons.
  - destruct l; simpl; [apply occurs_in_refl|].
    apply occurs_in_app_l, occurs_in_refl.
  - destruct l as [|y l]; [by apply elem_of_nil in Hin|].
    change (str_join sep (x :: y :: l)) with (x ++ sep ++ str_join sep (y :: l)).
    by apply occurs_in_app_r, occurs_in_app_r, IH.
Qed.

Lemma str_split_nonempty sep s : str_split sep s <> [].
Proof.
  destruct s as [|c s]; simpl; [done|].
  destruct (char_eqb c sep); [done|]. by destruct (str_split sep s).
Qed.

(** The first part of a split is a prefix of the string. *)
Lemma str_split_head sep s :
  exists h t r, str_split sep s = h :: t /\ s = h ++ r.
Proof.
  induction s as [|c s (h & t & r & Hs & Hr)]; simpl.
  - by exists [], [], [].
  - destruct (char_eqb c sep).
    + by exists [], (str_split sep s), (c :: s).
    + rewrite Hs. exists (c :: h), t, r. by rewrite Hr at 1.
Qed.

(** Every part of a split occurs in the string that was split. *)
Lemma str_split_occurs sep s part : part ∈ str_split sep s -> occurs_in part s.
Proof.
  revert part. induction s as [|c s IH]; intros part; simpl.
  - intros ->%list_elem_of_singleton. apply occurs_in_refl.
  - destruct (char_eqb c sep).
    + intros [->|Hin]%elem_of_cons.
      * exists [], (c :: s). done.
      * apply (occurs_in_app_r _ [c]), IH, Hin.
    + destruct (str_split_head sep s) as (h & t & r & Hs & Hr).
      rewrite Hs in *. intros [->|Hin]%elem_of_cons.
      * exists [], r. simpl. by rewrite Hr at 1.
      * apply (occurs_in_app_r _ [c]), IH. by right.
Qed.

Lemma str_split_app_sep sep a b :
  str_split sep (a ++ sep :: b) = str_split sep a ++ str_split sep b.
Proof.
  induction a as [|c a IH]; cbn [app str_split].
  - unfold char_eqb. by rewrite N.eqb_refl.
  - rewrite IH. destruct (char_eqb c sep); [done|].
    destruct (str_split_head sep a) as (h & t & _ & -> & _). done.
Qed.

Lemma str_split_whole sep s : sep ∉ s -> str_split sep s = [s].
Proof.
  induction s as [|c s IH]; [done|].
  intros [Hc Hs]%not_elem_of_cons. cbn [str_split].
  destruct (char_eqb c sep) eqn:Heq.
  - by apply char_eqb_eq in Heq as ->.
  - by rewrite IH.
Qed.

(** A text with no separator, at the head of a longer one, is the head of
    its first part. *)
Lemma str_split_app_head sep x b :
  sep ∉ x -> exists y r, str_split sep (x ++ b) = (x ++ y) :: r.
Proof.
  induction x as [|c x IH]; cbn [app].
  - intros _. destruct (str_split_head sep b) as (h & t & _ & -> & _). by exists h, t.
  - intros [Hc Hx]%not_elem_of_cons. destruct (IH Hx) as (y & r & Hs).
    cbn [str_split]. rewrite Hs.
    destruct (char_eqb c sep) eqn:Heq; [by apply char_eqb_eq in Heq|].
    by exists y, r.
Qed.

(** Where [pre/seg/x] occurs in a text, [seg] is a part of the text and the
    part after it starts with [x]. *)
Lemma occurs_in_parts sep pre seg x h :
  sep ∉ seg -> sep ∉ x ->
  occurs_in (pre ++ sep :: seg ++ sep :: x) h ->
  exists i y,
    (0 < i)%nat /\ str_split sep h !! i = Some seg /\
    str_split sep h !! S i = Some (x ++ y).
Proof.
  intros Hseg Hx (a & b & ->).
  replace (a ++ (pre ++ sep :: seg ++ sep :: x) ++ b)
    with ((a ++ pre) ++ sep :: seg ++ sep :: (x ++ b))
    by (by repeat (rewrite <- ?app_assoc; cbn [app])).
  rewrite !str_split_app_sep, (str_split_whole _ _ Hseg).
  destruct (str_split_app_head sep x b Hx) as (y & r & ->).
  pose proof (str_split_nonempty sep (a ++ pre)) as Hne.
  exists (length (str_split sep (a ++ pre))), y. cbn [app]. split; [|split].
  - destruct (str_split sep (a ++ pre)); [done | cbn [length]; lia].
  - by apply list_lookup_middle.
  - rewrite lookup_app_r by apply Nat.le_succ_diag_r.
    rewrite Nat.sub_succ_l by apply Nat.le_refl. by rewrite Nat.sub_diag.
Qed.

(** ** What the regular expressions match *)

Section Regex.
Context `{Unicode}.

Lemma last_char_nil prev : last_char prev [] = prev.
Proof. done. Qed.

Lemma last_char_cons prev c m : last_char prev (c :: m) = last_char (Some c) m.
Proof.
  unfold last_char. rewrite last_cons. by destruct (last m).
Qed.

Lemma last_char_app prev m1 m2 :
  last_char prev (m1 ++ m2) = last_char (last_char prev m1) m2.
Proof.
  revert prev. induction m1 as [|c m1 IH]; intros prev; [done|].
  simpl. by rewrite !last_char_cons, IH.
Qed.

Lemma rep1_spec {A} p s (k : char -> str -> option A) :
  is_Some (rep1 p s k) <->
  exists c m rest, s = c :: m ++ rest /\ Forall (fun a => p a = true) (c :: m) /\
                   is_Some (k (default c (last m)) rest).
Proof.
  induction s as [|a s IH]; simpl.
  - split; [by intros ?%is_Some_None | by intros (? & ? & ? & ? & _)].
  - destruct (p a) eqn:Hpa.
    + destruct (rep1 p s k) as [x|] eqn:Hrep.
      * split; [intros _ | by eauto].
        destruct IH as [(c & m & rest & -> & [Hc Hm]%Forall_cons & Hk) _]; [by eauto|].
        exists a, (c :: m), rest. split; [done|]. split; [by repeat constructor|].
        by rewrite last_cons; destruct (last m).
      * split.
        -- intros Hk. exists a, [], s. by repeat split; [constructor|].
        -- intros (c & m & rest & [= <- ->] & [_ Hm]%Forall_cons & Hk).
           destruct m as [|b m]; [done|].
           exfalso. apply (is_Some_None (A:=A)). apply IH.
           exists b, m, rest. split; [done|]. split; [done|].
           by rewrite last_cons in Hk; destruct (last m).
    + split; [by intros ?%is_Some_None|].
      intros (c & m & rest & [= <- ->] & [Hc _]%Forall_cons & _). congruence.
Qed.

(** The matcher finds a match exactly when there is one the continuation
    accepts. *)
Lemma rmatch_spec {A} r : forall prev s (k : option char -> str -> option A),
  is_Some (rmatch r prev s k) <->
  exists m rest, s = m ++ rest /\ matches r prev m rest /\
                 is_Some (k (last_char prev m) rest).
Proof.
  induction r as [|c|p|p| | |r1 IH1 r2 IH2]; intros prev s k; simpl.
  - split.
    + intros Hk. by exists [], s.
    + by intros (m & rest & -> & -> & Hk).
  - destruct s as [|a s].
    + split; [by intros ?%is_Some_None|]. by intros (m & rest & Hs & -> & _).
    + destruct (char_eqb a c) eqn:Hac.
      * apply char_eqb_eq in Hac as ->. split.
        -- intros Hk. by exists [c], s.
        -- intros (m & rest & Hs & -> & Hk). by injection Hs as ->.
      * split; [by intros ?%is_Some_None|].
        intros (m & rest & Hs & -> & _). injection Hs as -> _.
        unfold char_eqb in Hac. by rewrite N.eqb_refl in Hac.
  - destruct s as [|a s].
    + split; [by intros ?%is_Some_None|].
      by intros (m & rest & Hs & (b & -> & _) & _).
    + destruct (p a) eqn:Hpa.
      * split.
        -- intros Hk. exists [a], s. eauto.
        -- by intros (m & rest & Hs & (b & -> & _) & Hk); injection Hs as -> ->.
      * split; [by intros ?%is_Some_None|].
        intros (m & rest & Hs & (b & -> & Hb) & _). injection Hs as -> _. congruence.
  - rewrite rep1_spec. split.
    + intros (c & m & rest & -> & Hall & Hk). exists (c :: m), rest.
      split; [done|]. split; [done|].
      rewrite last_char_cons. unfold last_char. by destruct (last m).
    + intros (m & rest & -> & [Hne Hall] & Hk). destruct m as [|c m]; [done|].
      exists c, m, rest. split; [done|]. split; [done|].
      rewrite last_char_cons in Hk. unfold last_char in Hk. by destruct (last m).
  - destruct (xorb _ _) eqn:Hx.
    + split.
      * intros Hk. exists [], s. split; [done|]. split; [|done]. split; [done|].
        by destruct (is_word_at prev), (is_word_at (head s)).
      * by intros (m & rest & -> & [-> _] & Hk).
    + split; [by intros ?%is_Some_None|].
      intros (m & rest & -> & [-> Hne] & _). simpl in Hx.
      destruct (is_word_at prev), (is_word_at (head rest)); done.
  - destruct prev as [c|].
    + split; [by intros ?%is_Some_None|]. by intros (m & rest & _ & [_ ?] & _).
    + split.
      * intros Hk. by exists [], s.
      * by intros (m & rest & -> & [-> _] & Hk).
  - rewrite IH1. split.
    + intros (m1 & rest1 & -> & Hm1 & (m2 & rest & -> & Hm2 & Hk)%IH2).
      exists (m1 ++ m2), rest. rewrite <- app_assoc, last_char_app. eauto 10.
    + intros (m & rest & -> & (m1 & m2 & -> & Hm1 & Hm2) & Hk).
      exists m1, (m2 ++ rest). rewrite <- app_assoc. split; [done|]. split; [done|].
      apply IH2. exists m2, rest. by rewrite <- last_char_app.
Qed.

Lemma rmatch_here r prev s :
  is_Some (rmatch r prev s (fun _ rest => Some rest)) <->
  exists m rest, s = m ++ rest /\ matches r prev m rest.
Proof.
  rewrite rmatch_spec. split.
  - intros (m & rest & ? & ? & _). eauto.
  - intros (m & rest & ? & ?). exists m, rest. eauto.
Qed.

Lemma search_from_spec r : forall s prev,
  is_Some (search_from r prev s) <->
  exists pre m rest, s = pre ++ m ++ rest /\ matches r (last_char prev pre) m rest.
Proof.
  induction s as [|c s IH]; intros prev; simpl.
  - pose proof (rmatch_here r prev []) as Hh.
    destruct (rmatch r prev [] _) as [x|].
    + split; [intros _|by eauto].
      destruct Hh as [(m & rest & Hs & Hmat) _]; [by eauto|]. by exists [], m, rest.
    + split; [by intros ?%is_Some_None|].
      intros (pre & m & rest & Hs & Hmat).
      destruct pre; [|done]. exfalso. apply (is_Some_None (A:=str)).
      apply Hh. by exists m, rest.
  - pose proof (rmatch_here r prev (c :: s)) as Hh.
    destruct (rmatch r prev (c :: s) _) as [x|].
    + split; [intros _|by eauto].
      destruct Hh as [(m & rest & Hs & Hmat) _]; [by eauto|]. by exists [], m, rest.
    + rewrite IH. split.
      * intros (pre & m & rest & -> & Hmat). exists (c :: pre), m, rest.
        by rewrite last_char_cons.
      * intros (pre & m & rest & Hs & Hmat). destruct pre as [|c' pre].
        -- exfalso. apply (is_Some_None (A:=str)). apply Hh. by exists m, rest.
        -- injection Hs as -> ->. exists pre, m, rest.
           by rewrite last_char_cons in Hmat.
Qed.

Lemma matches_lit l prev m rest : matches (lit l) prev m rest <-> m = l.
Proof.
  revert prev m. induction l as [|c l IH]; intros prev m; simpl; [done|].
  split.
  - intros (m1 & m2 & -> & -> & ->%IH). done.
  - intros ->. exists [c], l. split; [done|]. split; [done|]. by apply IH.
Qed.

End Regex.

(** ** The command classifier *)

Section Classifier.
Context `{Unicode}.

Lemma is_word_at_ascii_letter c :
  in_range 97 122 c = true -> is_word_at (Some c) = true.
Proof.
  intros Hc. simpl. rewrite isword_ascii.
  - unfold ascii_isword. rewrite Hc. by rewrite !orb_true_r.
  - unfold in_range in Hc. apply andb_true_iff in Hc as [_ Hc%N.leb_le].
    unfold is_ascii. lia.
Qed.

Lemma git_commit_re_matches prev m rest :
  matches git_commit_re prev m rest <->
  exists ws, m = u "git" ++ ws ++ u "commit" /\ ws <> [] /\
             Forall (fun c => isspace c = true) ws /\
             is_word_at prev = false /\ is_word_at (head rest) = false.
Proof.
  unfold git_commit_re. split.
  - intros (m1 & m2 & -> & [-> Hb1] & m3 & m4 & -> & ->%matches_lit &
            m5 & m6 & -> & [Hne Hsp] & m7 & m8 & -> & ->%matches_lit & [-> Hb2]).
    exists m5. rewrite app_nil_r. split; [done|]. split; [done|]. split; [done|].
    change (head _) with (Some 103) in Hb1.
    change (last_char _ (u "commit")) with (Some 116) in Hb2.
    rewrite is_word_at_ascii_letter in Hb1, Hb2 by done.
    split.
    + by destruct (is_word_at prev).
    + by destruct (is_word_at (head rest)).
  - intros (ws & -> & Hne & Hsp & Hp & Hr).
    exists [], (u "git" ++ ws ++ u "commit"). split; [done|]. split.
    { split; [done|]. change (head _) with (Some 103).
      rewrite is_word_at_ascii_letter by done. by rewrite Hp. }
    exists (u "git"), (ws ++ u "commit"). split; [done|].
    split; [by apply matches_lit|].
    exists ws, (u "commit"). split; [done|]. split; [done|].
    exists (u "commit"), []. split; [by rewrite app_nil_r|].
    split; [by apply matches_lit|]. split; [done|].
    change (last_char _ (u "commit")) with (Some 116).
    rewrite is_word_at_ascii_letter by done. by rewrite Hr.
Qed.

Lemma is_git_commit_spec command :
  is_git_commit command = true <-> names_commit command.
Proof.
  unfold is_git_commit, re_search, names_commit.
  rewrite bool_decide_eq_true, search_from_spec. split.
  - intros (pre & m & rest & -> & (ws & -> & Hne & Hsp & Hp & Hr)%git_commit_re_matches).
    exists pre, ws, rest. rewrite <- !app_assoc. split; [done|].
    unfold last_char in Hp. by destruct (last pre).
  - intros (pre & ws & post & -> & Hne & Hsp & Hp & Hr).
    exists pre, (u "git" ++ ws ++ u "commit"), post.
    rewrite <- !app_assoc. split; [done|]. apply git_commit_re_matches.
    exists ws. split; [done|]. split; [done|]. split; [done|]. split; [|done].
    unfold last_char. by destruct (last pre).
Qed.

End Classifier.

(** ** Feature inference *)

Lemma rep1_greedy p s :
  rep1 p s (fun _ rest => Some rest) =
  match leading p s with
  | [] => None
  | m => Some (drop (length m) s)
  end.
Proof.
  induction s as [|c s IH]; simpl; [done|].
  destruct (p c); [|done]. rewrite IH. by destruct (leading p s).
Qed.

Lemma leading_prefix p s : exists t, s = leading p s ++ t.
Proof.
  induction s as [|c s [t Ht]]; simpl; [by exists []|].
  destruct (p c); [|by eexists].
  exists t. simpl. by rewrite <- Ht.
Qed.

Section Features.
Context `{Unicode}.

Lemma re_match_capital_word s : re_match capital_word_re s = capital_word s.
Proof.
  unfold re_match, capital_word_re, capital_word. simpl.
  destruct s as [|a s]; [done|].
  destruct (in_range 65 90 a); [|by destruct s]. simpl.
  change (rep1 _ s _) with (rep1 (in_range 97 122) s (fun _ rest => Some rest)).
  rewrite rep1_greedy. destruct s as [|b t]; [done|]. simpl.
  destruct (in_range 97 122 b); [|done]. simpl.
  destruct (leading_prefix (in_range 97 122) t) as [r Hr].
  set (l := leading (in_range 97 122) t) in *.
  do 2 f_equal. rewrite Hr at 1 2 3.
  rewrite drop_app_length, !length_app.
  replace (S (S (length l + length r)) - length r)%nat with (S (S (length l))) by lia.
  simpl. by rewrite take_app_length.
Qed.

Lemma layer_scan_exhausted parts i rest :
  no_layer rest -> layer_scan parts i rest = Val Exhausted.
Proof.
  revert i. induction rest as [|part rest IH]; intros i; [done|].
  intros [Hp Hrest]%Forall_cons. simpl. rewrite Hp. by apply IH.
Qed.

Lemma layer_scan_first seen pre layer post :
  no_layer pre -> is_layer layer = true ->
  layer_scan (seen ++ pre ++ layer :: post) (length seen) (pre ++ layer :: post)
  = Val (Broke (lower <$> last (seen ++ pre))).
Proof.
  revert seen. induction pre as [|part pre IH]; intros seen Hpre Hl.
  - simpl. rewrite Hl, app_nil_r. destruct seen as [|a seen _] using rev_ind; [done|].
    rewrite length_app, last_snoc. simpl.
    replace (0 <? length seen + 1)%nat with true by (symmetry; apply Nat.ltb_lt; lia).
    unfold index.
    replace (length seen + 1 - 1)%nat with (length seen) by lia.
    rewrite <- app_assoc. simpl. by rewrite list_lookup_middle.
  - apply Forall_cons in Hpre as [Hp Hpre]. simpl. rewrite Hp.
    specialize (IH (seen ++ [part]) Hpre Hl).
    rewrite length_app in IH. simpl in IH.
    replace (length seen + 1)%nat with (S (length seen)) in IH by lia.
    rewrite <- !app_assoc in IH. simpl in IH. by rewrite IH.
Qed.

(** The parts of a path either hold no layer name, or split at the first
    one. *)
Lemma first_layer parts :
  no_layer parts \/
  exists pre layer post,
    parts = pre ++ layer :: post /\ no_layer pre /\ is_layer layer = true.
Proof.
  induction parts as [|part parts IH]; [left; constructor|].
  destruct (is_layer part) eqn:Hp.
  - right. exists [], part, parts. split; [done|]. split; [constructor|done].
  - destruct IH as [Hno | (pre & layer & post & -> & Hpre & Hl)].
    + left. by constructor.
    + right. exists (part :: pre), layer, post. split; [done|]. split; [|done].
      by constructor.
Qed.

Lemma feature_of_layer f pre layer post :
  str_split 47 f = pre ++ layer :: post -> no_layer pre -> is_layer layer = true ->
  feature_of f = Val (lower <$> last pre).
Proof.
  intros Hs Hpre Hl. unfold feature_of. rewrite Hs.
  pose proof (layer_scan_first [] pre layer post Hpre Hl) as Hscan.
  simpl in Hscan. rewrite Hscan. simpl. by destruct (last pre).
Qed.

Lemma feature_of_filename f :
  no_layer (str_split 47 f) ->
  feature_of f = Val (lower <$> capital_word (path_stem f)).
Proof.
  intros Hno. unfold feature_of. rewrite (layer_scan_exhausted _ _ _ Hno). simpl.
  rewrite re_match_capital_word. by destruct (capital_word (path_stem f)).
Qed.

Lemma feature_of_total f : exists added, feature_of f = Val added.
Proof.
  destruct (first_layer (str_split 47 f)) as [Hno | (pre & layer & post & Hs & Hpre & Hl)].
  - eexists. by apply feature_of_filename.
  - eexists. by eapply feature_of_layer.
Qed.

Lemma extract_feature_names_from_spec java_files : forall names,
  exists names',
    extract_feature_names_from names java_files = Val names' /\
    forall name, name ∈ names' <-> name ∈ names \/ contributed java_files name.
Proof.
  unfold contributed.
  induction java_files as [|f fs IH]; intros names; simpl.
  - exists names. split; [done|]. intros name. split; [by left|].
    intros [?|(f & ?%elem_of_nil & _)]; done.
  - destruct (feature_of_total f) as [added Hf]. rewrite Hf. simpl.
    destruct (IH (match added with Some name => names ∪ {[name]} | None => names end))
      as (names' & -> & Hin).
    exists names'. split; [done|]. intros name. rewrite Hin.
    setoid_rewrite elem_of_cons. destruct added as [x|].
    + rewrite elem_of_union, elem_of_singleton. split.
      * intros [[?| ->]|(g & ? & ?)]; eauto 10.
      * intros [?|(g & [->|?] & Hg)]; eauto 10.
        rewrite Hf in Hg. injection Hg as ->. eauto.
    + split.
      * intros [?|(g & ? & ?)]; eauto 10.
      * intros [?|(g & [->|?] & Hg)]; eauto 10. by rewrite Hf in Hg.
Qed.

Lemma extract_feature_names_spec java_files :
  exists names,
    extract_feature_names java_files = Val names /\
    forall name, name ∈ names <-> contributed java_files name.
Proof.
  destruct (extract_feature_names_from_spec java_files ∅) as (names & Hn & Hin).
  exists names. split; [done|]. intros name. rewrite Hin. split; [|by right].
  by intros [?%not_elem_of_empty|?].
Qed.

End Features.

(** ** The verdict *)

Section Gate.
Context `{Unicode}.

Lemma truthy_true {A} (l : list A) : truthy l = true <-> l <> [].
Proof. by destruct l. Qed.

Lemma truthy_false {A} (l : list A) : truthy l = false <-> l = [].
Proof. by destruct l. Qed.

Lemma foldl_check_feature w features : forall errors,
  foldl (check_feature w) errors features = errors ++ omap (feature_entry w) features.
Proof.
  induction features as [|f features IH]; intros errors; simpl.
  - by rewrite app_nil_r.
  - rewrite IH. unfold check_feature, feature_entry.
    destruct (missing_docs w f); simpl; [done|]. by rewrite <- app_assoc.
Qed.

Lemma check_docs_eq w feature_names staged_files :
  check_docs w feature_names staged_files =
  catalog_check w staged_files ++ omap (feature_entry w) (set_order w feature_names).
Proof.
  unfold check_docs, catalog_check, catalog_path. rewrite foldl_check_feature.
  by repeat destruct (negb _).
Qed.

(** Whatever the order, the run goes through each name of the set once. *)
Lemma elem_of_set_order (w : World) (feature_names : gset str) (feature : str) :
  feature ∈ set_order w feature_names <-> feature ∈ feature_names.
Proof. by rewrite (set_order_perm w feature_names), elem_of_elements. Qed.

Lemma NoDup_set_order (w : World) (feature_names : gset str) :
  NoDup (set_order w feature_names).
Proof. rewrite (set_order_perm w feature_names). apply NoDup_elements. Qed.

Lemma main_policy_run w staged_files java_changes :
  policy_run w staged_files java_changes ->
  main w =
  match check_build w with
  | Exc e => Uncaught e
  | Val build_error =>
    match extract_feature_names java_changes with
    | Exc e => Uncaught e
    | Val feature_names =>
      let all_errors := all_errors w staged_files build_error feature_names in
      if truthy all_errors
      then Deny (report w java_changes feature_names all_errors)
      else Allow
    end
  end.
Proof.
  intros [(command & (input_data & Hin & Hcmd) & Hc) (Hs & -> & Hj)]. unfold main.
  rewrite Hin, Hcmd, Hc, Hs. simpl.
  apply truthy_true in Hj as Hj'. rewrite Hj'. simpl.
  destruct staged_files; [done|]. done.
Qed.

(** A failed build always leaves a message, and the message a text. *)
Lemma check_build_message w e : check_build w = Val (Some e) -> truthy e = true.
Proof.
  unfold check_build.
  destruct (path_exists w _).
  - destruct (gradlew_compile w) as [rc out err|]; simpl; [|done].
    destruct (negb _); [|done]. by intros [= <-].
  - destruct (path_exists w _); [|done].
    destruct (mvn_compile w) as [rc out err|]; simpl; [|done].
    destruct (negb _); [|done]. by intros [= <-].
Qed.

Lemma occurs_in_report w e java_changes feature_names errors :
  e ∈ errors -> occurs_in e (report w java_changes feature_names errors).
Proof.
  intros Hin. unfold report.
  apply occurs_in_app_r, occurs_in_app_l, occurs_in_join, Hin.
Qed.

End Gate.

Section Verdict.
Context `{Unicode}.

(** The three parts of [all_errors], in the order they are added. *)
Lemma all_errors_eq w staged_files build_error feature_names :
  all_errors w staged_files build_error feature_names =
  (if truthy_opt build_error then [u "❌ " ++ default [] build_error] else []) ++
  (if bool_decide (feature_names ≠ ∅) then check_docs w feature_names staged_files else []) ++
  (if truthy_opt (check_staged_docs staged_files) then [no_staged_docs_msg] else []).
Proof.
  unfold all_errors, check_staged_docs.
  destruct (truthy_opt build_error), (bool_decide (feature_names ≠ ∅)),
    (negb (truthy _)); simpl; by rewrite ?app_nil_r.
Qed.

Lemma check_staged_docs_some staged_files :
  truthy_opt (check_staged_docs staged_files) = true <->
  Forall (fun f => startswith (u "src/docs/") f = false) staged_files.
Proof.
  unfold check_staged_docs.
  induction staged_files as [|f fs IH].
  - split; [constructor|done].
  - rewrite filter_cons, Forall_cons. cbv beta.
    destruct (startswith (u "src/docs/") f) eqn:Hf.
    + rewrite decide_True by exact I. split; [done|]. by intros [? _].
    + rewrite decide_False by (by intros []). rewrite IH.
      split; [by split | by intros [_ ?]].
Qed.

Lemma catalog_check_nil w staged_files :
  catalog_check w staged_files = [] <->
  path_exists w (catalog_path w) = true /\
  existsb (contains (u "ERROR_MESSAGES.md")) staged_files = true.
Proof.
  unfold catalog_check.
  destruct (path_exists w _), (existsb _ _); simpl; intuition discriminate.
Qed.

Lemma omap_nil {A B} (g : A -> option B) (l : list A) :
  omap g l = [] <-> forall x, x ∈ l -> g x = None.
Proof.
  induction l as [|a l IH]; simpl.
  - split; [by intros _ x ?%elem_of_nil|done].
  - destruct (g a) eqn:Ha.
    + split; [done|]. intros Hall. specialize (Hall a). rewrite Ha in Hall.
      by specialize (Hall (list_elem_of_here _ _)).
    + rewrite IH. split.
      * intros Hall x [->|Hx]%elem_of_cons; [done|by apply Hall].
      * intros Hall x Hx. apply Hall. by right.
Qed.

Lemma feature_entry_none w feature :
  feature_entry w feature = None <-> missing_docs w feature = [].
Proof. unfold feature_entry. by destruct (missing_docs w feature). Qed.

Lemma check_docs_nil w feature_names staged_files :
  check_docs w feature_names staged_files = [] <->
  catalog_check w staged_files = [] /\
  forall feature, feature ∈ feature_names -> missing_docs w feature = [].
Proof.
  rewrite check_docs_eq, app_nil, omap_nil.
  setoid_rewrite elem_of_set_order. by setoid_rewrite feature_entry_none.
Qed.

(** The run denies exactly when [all_errors] holds an entry. *)
Lemma main_deny_iff w staged_files java_changes build_error feature_names :
  policy_run w staged_files java_changes ->
  check_build w = Val build_error ->
  extract_feature_names java_changes = Val feature_names ->
  (main w = Deny (report w java_changes feature_names
                    (all_errors w staged_files build_error feature_names)) /\
   all_errors w staged_files build_error feature_names <> []) \/
  (main w = Allow /\ all_errors w staged_files build_error feature_names = []).
Proof.
  intros Hrun Hb Hf. rewrite (main_policy_run _ _ _ Hrun), Hb, Hf. simpl.
  destruct (all_errors _ _ _ _); simpl; [by right | by left].
Qed.

End Verdict.

(** ** The claims *)

Section Claims.
Context `{Unicode}.

Lemma app_not_nil {A} (l1 l2 : list A) : l1 ++ l2 <> [] <-> l1 <> [] \/ l2 <> [].
Proof.
  destruct l1; simpl.
  - split; [by right | by intros [?|?]].
  - split; [by left | done].
Qed.

Lemma omap_not_nil {A B} (g : A -> option B) (l : list A) :
  omap g l <> [] <-> exists x, x ∈ l /\ g x <> None.
Proof.
  induction l as [|a l IH]; simpl.
  - split; [done | by intros (x & ?%elem_of_nil & _)].
  - destruct (g a) eqn:Ha.
    + split; [|done]. intros _. exists a. split; [left | by rewrite Ha].
    + rewrite IH. split.
      * intros (x & Hx & Hg). exists x. split; [by right | done].
      * intros (x & [->|Hx]%elem_of_cons & Hg); [done | eauto].
Qed.

Lemma check_docs_not_nil w feature_names staged_files :
  check_docs w feature_names staged_files <> [] <->
  path_exists w (catalog_path w) = false \/
  existsb (contains (u "ERROR_MESSAGES.md")) staged_files = false \/
  exists feature, feature ∈ feature_names /\ missing_docs w feature <> [].
Proof.
  rewrite check_docs_eq, app_not_nil, omap_not_nil.
  setoid_rewrite elem_of_set_order.
  assert (forall feature, feature_entry w feature <> None <-> missing_docs w feature <> [])
    as Hentry by (intros feature; by rewrite feature_entry_none).
  setoid_rewrite Hentry.
  assert (catalog_check w staged_files <> [] <->
          path_exists w (catalog_path w) = false \/
          existsb (contains (u "ERROR_MESSAGES.md")) staged_files = false) as ->.
  { unfold catalog_check.
    destruct (path_exists w _), (existsb _ _); simpl; intuition discriminate. }
  tauto.
Qed.

Lemma all_errors_not_nil w staged_files build_error feature_names :
  check_build w = Val build_error ->
  all_errors w staged_files build_error feature_names <> [] <->
  is_Some build_error \/
  (feature_names <> ∅ /\
   (path_exists w (catalog_path w) = false \/
    existsb (contains (u "ERROR_MESSAGES.md")) staged_files = false \/
    exists feature, feature ∈ feature_names /\ missing_docs w feature <> [])) \/
  Forall (fun f => startswith (u "src/docs/") f = false) staged_files.
Proof.
  intros Hb. rewrite all_errors_eq, !app_not_nil.
  rewrite <- check_staged_docs_some, <- check_docs_not_nil.
  assert (truthy_opt build_error = true <-> is_Some build_error) as Hbuild.
  { destruct build_error as [e|]; simpl.
    - rewrite (check_build_message _ _ Hb). split; eauto.
    - split; [done | by intros ?%is_Some_None]. }
  rewrite <- Hbuild.
  destruct (truthy_opt build_error), (truthy_opt (check_staged_docs staged_files));
    case_bool_decide; intuition (try discriminate; try congruence).
Qed.

Lemma main_deny_entries w staged_files java_changes build_error feature_names :
  policy_run w staged_files java_changes ->
  check_build w = Val build_error ->
  extract_feature_names java_changes = Val feature_names ->
  (exists reason, main w = Deny reason) <->
  all_errors w staged_files build_error feature_names <> [].
Proof.
  intros Hrun Hb Hf.
  destruct (main_deny_iff _ _ _ _ _ Hrun Hb Hf) as [[Hm Hne] | [Hm He]].
  - split; [done | eauto].
  - rewrite Hm, He. split; [by intros [? ?] | done].
Qed.

(** C1 (amended). Once the run reaches the checks, the verdict is [Deny]
    exactly when some check left an entry: the build failed, or, with at
    least one inferred feature, the error catalog is missing, or is present
    but not staged, or a feature lacks a document, or no staged file lies
    under [src/docs/]. The two warnings deny on their own. *)
Theorem deny_iff_any_entry w staged_files java_changes build_error feature_names :
  policy_run w staged_files java_changes ->
  check_build w = Val build_error ->
  extract_feature_names java_changes = Val feature_names ->
  (exists reason, main w = Deny reason) <->
  is_Some build_error \/
  (feature_names <> ∅ /\
   (path_exists w (catalog_path w) = false \/
    existsb (contains (u "ERROR_MESSAGES.md")) staged_files = false \/
    exists feature, feature ∈ feature_names /\ missing_docs w feature <> [])) \/
  Forall (fun f => startswith (u "src/docs/") f = false) staged_files.
Proof.
  intros Hrun Hb Hf.
  by rewrite (main_deny_entries _ _ _ _ _ Hrun Hb Hf), (all_errors_not_nil _ _ _ _ Hb).
Qed.

(** C2 (amended). Once the run reaches the checks with at least one
    inferred feature, a missing error catalog gives [Deny] and the report
    names the catalog path. With no inferred feature the catalog is not
    looked at: the verdict is [Deny] exactly when the build failed or no
    staged file lies under [src/docs/]. *)
Theorem missing_catalog_denies w staged_files java_changes build_error feature_names :
  policy_run w staged_files java_changes ->
  check_build w = Val build_error ->
  extract_feature_names java_changes = Val feature_names ->
  path_exists w (catalog_path w) = false ->
  (feature_names <> ∅ ->
   exists reason, main w = Deny reason /\
                  occurs_in (u "src/docs/ERROR_MESSAGES.md") reason) /\
  (feature_names = ∅ ->
   (exists reason, main w = Deny reason) <->
   is_Some build_error \/
   Forall (fun f => startswith (u "src/docs/") f = false) staged_files).
Proof.
  intros Hrun Hb Hf Hcat. split.
  - intros Hne.
    assert (catalog_missing_msg ∈ all_errors w staged_files build_error feature_names)
      as Hin.
    { rewrite all_errors_eq, check_docs_eq. unfold catalog_check. rewrite Hcat.
      rewrite bool_decide_eq_true_2 by done. simpl.
      apply elem_of_app. right. left. }
    destruct (main_deny_iff _ _ _ _ _ Hrun Hb Hf) as [[Hm _] | [_ He]].
    + eexists. split; [done|].
      apply occurs_in_trans with catalog_missing_msg.
      * apply contains_spec. by vm_compute.
      * by apply occurs_in_report.
    + rewrite He in Hin. by apply elem_of_nil in Hin.
  - intros He.
    rewrite (main_deny_entries _ _ _ _ _ Hrun Hb Hf), (all_errors_not_nil _ _ _ _ Hb).
    split; [|tauto]. intros [?|[[? _]|?]]; tauto.
Qed.

Lemma main_build_raises w staged_files java_changes e :
  policy_run w staged_files java_changes ->
  check_build w = Exc e -> main w = Uncaught e.
Proof. intros Hrun Hb. by rewrite (main_policy_run _ _ _ Hrun), Hb. Qed.

(** C3 (what the code does). When the build tool runs out of its time,
    [subprocess.run] raises [TimeoutExpired]; [check_build] has no handler
    for it, nor has [main]: the exception leaves [main] and no verdict is
    written. *)
Theorem build_timeout_escapes w staged_files java_changes :
  policy_run w staged_files java_changes ->
  (path_exists w (gradlew_path w) = true /\
   gradlew_compile w = Raises TimeoutExpired) \/
  (path_exists w (gradlew_path w) = false /\ path_exists w (pom_path w) = true /\
   mvn_compile w = Raises TimeoutExpired) ->
  check_build w = Exc TimeoutExpired /\ main w = Uncaught TimeoutExpired.
Proof.
  intros Hrun Hcase.
  assert (check_build w = Exc TimeoutExpired) as Hb.
  { unfold check_build. fold (gradlew_path w) (pom_path w).
    destruct Hcase as [[-> ->] | (-> & -> & ->)]; done. }
  split; [done|]. by apply (main_build_raises _ _ _ _ Hrun).
Qed.

Lemma all_errors_build w staged_files e feature_names :
  truthy e = true ->
  all_errors w staged_files (Some e) feature_names =
  (u "❌ " ++ e) :: all_errors w staged_files None feature_names.
Proof.
  intros He. rewrite !all_errors_eq. cbn [truthy_opt default from_option id].
  by rewrite He.
Qed.

(** C5. Once the run reaches the checks, a build that ends with a non-zero
    exit gives [Deny] whatever documents exist. The message of
    [check_build] is the heading of the tool and the first 300 characters
    of its error stream, no more; the report is the one whose first entry
    is that message after its mark, 316 characters at most, followed by
    the entries of the other checks. With neither build descriptor on disk
    [check_build] returns [None] without running a tool, and the verdict
    is the one of the other checks. *)
Theorem build_failure_dominates w :
  (forall staged_files java_changes returncode stdout stderr wording,
     policy_run w staged_files java_changes ->
     returncode <> 0%Z ->
     (path_exists w (gradlew_path w) = true /\
      gradlew_compile w = Completed returncode stdout stderr /\
      wording = gradle_failed) \/
     (path_exists w (gradlew_path w) = false /\ path_exists w (pom_path w) = true /\
      mvn_compile w = Completed returncode stdout stderr /\
      wording = maven_failed) ->
     check_build w = Val (Some (wording ++ take 300 stderr)) /\
     (length (u "❌ " ++ wording ++ take 300 stderr) <= 316)%nat /\
     exists feature_names reason,
       extract_feature_names java_changes = Val feature_names /\
       main w = Deny reason /\
       reason = report w java_changes feature_names
                  ((u "❌ " ++ wording ++ take 300 stderr) ::
                   all_errors w staged_files None feature_names) /\
       occurs_in (u "❌ " ++ wording ++ take 300 stderr) reason) /\
  (path_exists w (gradlew_path w) = false -> path_exists w (pom_path w) = false ->
   check_build w = Val None /\
   forall staged_files java_changes feature_names,
     policy_run w staged_files java_changes ->
     extract_feature_names java_changes = Val feature_names ->
     (exists reason, main w = Deny reason) <->
     all_errors w staged_files None feature_names <> []).
Proof.
  split.
  - intros staged_files java_changes returncode stdout stderr wording Hrun Hrc Hcase.
    assert (check_build w = Val (Some (wording ++ take 300 stderr))) as Hb.
    { unfold check_build. fold (gradlew_path w) (pom_path w).
      apply Z.eqb_neq in Hrc.
      destruct Hcase as [(-> & -> & ->) | (-> & -> & -> & ->)];
        unfold subprocess_run, mbind, res_bind, slice_to; cbv beta iota;
        by rewrite Hrc. }
    split; [done|]. split.
    { rewrite !length_app, length_take.
      replace (length (u "❌ ")) with 2%nat by (by vm_compute).
      destruct Hcase as [(_ & _ & ->) | (_ & _ & _ & ->)].
      - replace (length gradle_failed) with 14%nat by (by vm_compute). lia.
      - replace (length maven_failed) with 13%nat by (by vm_compute). lia. }
    destruct (extract_feature_names_spec java_changes) as (feature_names & Hf & _).
    pose proof (check_build_message _ _ Hb) as He.
    pose proof (all_errors_build w staged_files _ feature_names He) as Hall.
    exists feature_names. eexists. split; [done|].
    destruct (main_deny_iff _ _ _ _ _ Hrun Hb Hf) as [[Hm _] | [_ Hnil]].
    + rewrite Hall in Hm. split; [exact Hm|]. split; [done|].
      apply occurs_in_report. left.
    + by rewrite Hall in Hnil.
  - intros Hg Hp.
    assert (check_build w = Val None) as Hb.
    { unfold check_build. fold (gradlew_path w) (pom_path w). by rewrite Hg, Hp. }
    split; [done|]. intros staged_files java_changes feature_names Hrun Hf.
    apply (main_deny_entries _ _ _ _ _ Hrun Hb Hf).
Qed.

(** C6. When the staged-file query ends with a non-zero exit, the staged
    set is taken to be empty; and whenever the staged set is empty the run
    ends in [Allow], nothing written, whatever the file system holds. *)
Theorem empty_staged_set_allows w :
  (exists command, payload_command w command) ->
  (forall returncode stdout stderr,
     git_diff_cached w = Completed returncode stdout stderr -> returncode <> 0%Z ->
     get_staged_files w = Val []) /\
  (get_staged_files w = Val [] -> main w = Allow).
Proof.
  intros (command & input_data & Hin & Hcmd). split.
  - intros returncode stdout stderr Hgit Hrc. unfold get_staged_files.
    rewrite Hgit. simpl. apply Z.eqb_neq in Hrc. by rewrite Hrc.
  - intros Hs. unfold main. rewrite Hin, Hcmd, Hs.
    by destruct (negb (is_git_commit _)).
Qed.

Lemma missing_docs_eq w feature :
  missing_docs w feature =
  (if path_exists w (spec_path w feature) || path_exists w (spec_path w (capitalize feature))
   then [] else [spec_line feature]) ++
  (if path_exists w (arch_path w feature) then [] else [arch_line feature]) ++
  (if path_exists w (guide_path w feature) then [] else [guide_line feature]).
Proof.
  unfold missing_docs. fold (spec_path w feature) (spec_path w (capitalize feature))
    (arch_path w feature) (guide_path w feature).
  cbn [existsb]. rewrite orb_false_r.
  by destruct (_ || _), (path_exists w (arch_path w feature)),
    (path_exists w (guide_path w feature)).
Qed.

Lemma length_omap_filter {A B} (g : A -> option B) (l : list A) :
  length (omap g l) = length (filter (fun x => g x <> None) l).
Proof.
  induction l as [|a l IH]; [done|].
  rewrite filter_cons. cbv beta. simpl. destruct (g a) eqn:Ha.
  - rewrite decide_True by done. simpl. f_equal. exact IH.
  - rewrite decide_False by (intros Hn; by apply Hn). done.
Qed.

Lemma entries_per_feature (w : World) (feature_names : gset str) :
  length (omap (feature_entry w) (set_order w feature_names)) =
  size (filter (fun feature => missing_docs w feature <> []) feature_names).
Proof.
  rewrite length_omap_filter. unfold size, set_size. simpl.
  apply Permutation_length, NoDup_Permutation.
  - apply NoDup_filter, NoDup_set_order.
  - apply NoDup_elements.
  - intros feature.
    rewrite list_elem_of_filter, elem_of_set_order, elem_of_elements, elem_of_filter,
      feature_entry_none.
    done.
Qed.

(** The entry of a feature, as the text that is written. *)
Lemma feature_entry_lines w feature :
  feature_entry w feature =
  match
    (if path_exists w (spec_path w feature) ||
        path_exists w (spec_path w (capitalize feature))
     then [] else [u "  - 기능명세서: src/docs/" ++ feature ++ u "_기능명세서.md"]) ++
    (if path_exists w (arch_path w feature) then []
     else [u "  - 아키텍처 설명서: src/docs/architecture/" ++ feature ++ u ".md"]) ++
    (if path_exists w (guide_path w feature) then []
     else [u "  - 사용자매뉴얼: src/docs/user-guide/" ++ feature ++ u ".md"])
  with
  | [] => None
  | missing =>
    Some ((u "📁 기능 '" ++ feature ++ u "' 관련 문서 누락:" ++ nl) ++ str_join nl missing)
  end.
Proof. unfold feature_entry. rewrite missing_docs_eq. reflexivity. Qed.

Lemma feature_entry_lacks_only w feature label path :
  lacks_only w feature label path ->
  feature_entry w feature =
  Some ((u "📁 기능 '" ++ feature ++ u "' 관련 문서 누락:" ++ nl) ++ label ++ path).
Proof.
  rewrite feature_entry_lines.
  intros [(-> & -> & -> & -> & ->) | [(-> & -> & -> & -> & ->) | (-> & -> & -> & -> & ->)]];
    cbn [app str_join]; do 2 f_equal; by vm_compute.
Qed.

(** The parts of an entry of one line: the heading and the label run up
    to [src], then come [docs] and the parts of what follows. *)
Lemma entry_parts feature label rest :
  47 ∉ feature -> 47 ∉ label ->
  str_split 47 ((u "📁 기능 '" ++ feature ++ u "' 관련 문서 누락:" ++ nl) ++
                label ++ u "src/docs/" ++ rest) =
  ((u "📁 기능 '" ++ feature ++ u "' 관련 문서 누락:" ++ nl) ++ label ++ u "src") ::
  u "docs" :: str_split 47 rest.
Proof.
  intros Hf Hl.
  replace ((u "📁 기능 '" ++ feature ++ u "' 관련 문서 누락:" ++ nl) ++
           label ++ u "src/docs/" ++ rest)
    with (((u "📁 기능 '" ++ feature ++ u "' 관련 문서 누락:" ++ nl) ++ label ++ u "src") ++
          47 :: u "docs" ++ 47 :: rest)
    by (rewrite <- !app_assoc; do 5 f_equal; by vm_compute).
  rewrite !str_split_app_sep.
  rewrite (str_split_whole 47 (u "docs")) by decide_by_evaluation.
  rewrite str_split_whole; [done|].
  rewrite !not_elem_of_app. repeat split; try done; decide_by_evaluation.
Qed.

(** A text that holds a low line is neither of the two directory names. *)
Lemma low_line_text x y dir :
  95 ∉ dir -> (x ++ u "_기능명세서.md") ++ y <> dir.
Proof.
  intros Hno Heq. apply Hno. rewrite <- Heq, !elem_of_app. left. right.
  decide_by_evaluation.
Qed.

(** The parts of the three entries of one line. *)
Lemma spec_entry_parts feature :
  47 ∉ feature ->
  str_split 47 ((u "📁 기능 '" ++ feature ++ u "' 관련 문서 누락:" ++ nl) ++
                u "  - 기능명세서: " ++ u "src/docs/" ++ feature ++ u "_기능명세서.md") =
  [(u "📁 기능 '" ++ feature ++ u "' 관련 문서 누락:" ++ nl) ++ u "  - 기능명세서: " ++ u "src";
   u "docs"; feature ++ u "_기능명세서.md"].
Proof.
  intros Hf. rewrite entry_parts by (done || decide_by_evaluation).
  rewrite str_split_whole; [done|].
  rewrite not_elem_of_app. split; [done | decide_by_evaluation].
Qed.

Lemma dir_entry_parts feature label dir :
  47 ∉ feature -> 47 ∉ label -> 47 ∉ dir ->
  str_split 47 ((u "📁 기능 '" ++ feature ++ u "' 관련 문서 누락:" ++ nl) ++
                label ++ u "src/docs/" ++ dir ++ 47 :: feature ++ u ".md") =
  [(u "📁 기능 '" ++ feature ++ u "' 관련 문서 누락:" ++ nl) ++ label ++ u "src";
   u "docs"; dir; feature ++ u ".md"].
Proof.
  intros Hf Hl Hd. rewrite entry_parts by done.
  rewrite str_split_app_sep, !str_split_whole; [done | | done].
  rewrite not_elem_of_app. split; [done | decide_by_evaluation].
Qed.

(** The parts of an entry cannot hold the parts of another document. *)
Ltac parts_clash Hi Hat Hnext :=
  match type of Hat with
  | _ !! ?i = _ =>
    destruct i as [|[|[|[|i]]]]; [by apply Nat.lt_irrefl in Hi|..];
    cbn [lookup list_lookup] in Hat, Hnext; try discriminate Hnext; try discriminate Hat;
    apply (inj Some) in Hat; apply (inj Some) in Hnext;
    try (by vm_compute in Hat);
    exfalso; symmetry in Hnext; revert Hnext; apply low_line_text; decide_by_evaluation
  end.

(** An entry of one line names no document but the one of the line. *)
Lemma entry_names_one w feature label path other :
  47 ∉ feature ->
  lacks_only w feature label path ->
  other ∈ document_paths feature -> other <> path ->
  ~ occurs_in other
      ((u "📁 기능 '" ++ feature ++ u "' 관련 문서 누락:" ++ nl) ++ label ++ path).
Proof.
  intros Hf Hlacks Hother Hne Hocc.
  assert (47 ∉ feature ++ u "_기능명세서.md") as Hspec
    by (rewrite not_elem_of_app; split; [done | decide_by_evaluation]).
  assert (47 ∉ feature ++ u ".md") as Hmd
    by (rewrite not_elem_of_app; split; [done | decide_by_evaluation]).
  assert (exists parts,
            str_split 47 ((u "📁 기능 '" ++ feature ++ u "' 관련 문서 누락:" ++ nl) ++
                          label ++ path) = parts /\
            (path = u "src/docs/" ++ feature ++ u "_기능명세서.md" /\
             parts = [(u "📁 기능 '" ++ feature ++ u "' 관련 문서 누락:" ++ nl) ++
                        label ++ u "src";
                      u "docs"; feature ++ u "_기능명세서.md"] \/
             path = u "src/docs/architecture/" ++ feature ++ u ".md" /\
             parts = [(u "📁 기능 '" ++ feature ++ u "' 관련 문서 누락:" ++ nl) ++
                        label ++ u "src";
                      u "docs"; u "architecture"; feature ++ u ".md"] \/
             path = u "src/docs/user-guide/" ++ feature ++ u ".md" /\
             parts = [(u "📁 기능 '" ++ feature ++ u "' 관련 문서 누락:" ++ nl) ++
                        label ++ u "src";
                      u "docs"; u "user-guide"; feature ++ u ".md"]))
    as (parts & Hparts & Hkind).
  { eexists. split; [reflexivity|].
    destruct Hlacks as [(_ & _ & _ & -> & ->) | [(_ & _ & _ & -> & ->) | (_ & _ & _ & -> & ->)]].
    - left. split; [done|]. by apply spec_entry_parts.
    - right. left. split; [done|].
      exact (dir_entry_parts feature (u "  - 아키텍처 설명서: ") (u "architecture") Hf
               ltac:(decide_by_evaluation) ltac:(decide_by_evaluation)).
    - right. right. split; [done|].
      exact (dir_entry_parts feature (u "  - 사용자매뉴얼: ") (u "user-guide") Hf
               ltac:(decide_by_evaluation) ltac:(decide_by_evaluation)). }
  unfold document_paths in Hother.
  apply elem_of_cons in Hother as [->|Hother];
    [|apply elem_of_cons in Hother as [->|Hother];
      [|apply list_elem_of_singleton in Hother as ->]].
  - apply (occurs_in_parts 47 (u "src") (u "docs") (feature ++ u "_기능명세서.md"))
      in Hocc as (i & y & Hi & Hat & Hnext); [|decide_by_evaluation|done].
    rewrite Hparts in Hat, Hnext.
    destruct Hkind as [[-> ->] | [[-> ->] | [-> ->]]]; [done | |];
      parts_clash Hi Hat Hnext.
  - apply (occurs_in_parts 47 (u "src/docs") (u "architecture") (feature ++ u ".md"))
      in Hocc as (i & y & Hi & Hat & Hnext); [|decide_by_evaluation|done].
    rewrite Hparts in Hat, Hnext.
    destruct Hkind as [[-> ->] | [[-> ->] | [-> ->]]]; [|done|];
      parts_clash Hi Hat Hnext.
  - apply (occurs_in_parts 47 (u "src/docs") (u "user-guide") (feature ++ u ".md"))
      in Hocc as (i & y & Hi & Hat & Hnext); [|decide_by_evaluation|done].
    rewrite Hparts in Hat, Hnext.
    destruct Hkind as [[-> ->] | [[-> ->] | [-> ->]]]; [| |done];
      parts_clash Hi Hat Hnext.
Qed.

(** C8. [check_docs] returns the entries about the catalog, then, going
    once through the features, one entry for each feature that lacks a
    document and none for the others. The entry of a feature is its
    heading and, line by line, each document that is missing, as a path
    under [src/docs/] (the specification when it is there under neither
    name). A feature that lacks one document alone gets the heading and
    the line of that document; the run denies with that entry in the
    report, and the entry names the missing path and neither of the two
    others. *)
Theorem one_entry_per_feature (w : World) (feature_names : gset str)
    (staged_files : list str) :
  (check_docs w feature_names staged_files =
     catalog_check w staged_files ++ omap (feature_entry w) (set_order w feature_names) /\
   NoDup (set_order w feature_names) /\
   (forall feature, feature ∈ set_order w feature_names <-> feature ∈ feature_names) /\
   length (omap (feature_entry w) (set_order w feature_names)) =
     size (filter (fun feature => missing_docs w feature <> []) feature_names)) /\
  (forall feature,
     feature_entry w feature =
     match
       (if path_exists w (spec_path w feature) ||
           path_exists w (spec_path w (capitalize feature))
        then [] else [u "  - 기능명세서: src/docs/" ++ feature ++ u "_기능명세서.md"]) ++
       (if path_exists w (arch_path w feature) then []
        else [u "  - 아키텍처 설명서: src/docs/architecture/" ++ feature ++ u ".md"]) ++
       (if path_exists w (guide_path w feature) then []
        else [u "  - 사용자매뉴얼: src/docs/user-guide/" ++ feature ++ u ".md"])
     with
     | [] => None
     | missing =>
       Some ((u "📁 기능 '" ++ feature ++ u "' 관련 문서 누락:" ++ nl) ++
             str_join nl missing)
     end) /\
  (forall feature label path entry java_changes build_error,
     policy_run w staged_files java_changes ->
     check_build w = Val build_error ->
     extract_feature_names java_changes = Val feature_names ->
     feature ∈ feature_names ->
     lacks_only w feature label path ->
     entry = (u "📁 기능 '" ++ feature ++ u "' 관련 문서 누락:" ++ nl) ++ label ++ path ->
     feature_entry w feature = Some entry /\
     (exists reason, main w = Deny reason /\ occurs_in entry reason) /\
     occurs_in path entry /\
     ((47 ∉ feature) ->
      forall other, other ∈ document_paths feature -> other <> path ->
                    ~ occurs_in other entry)).
Proof.
  split; [|split].
  - split; [apply check_docs_eq|]. split; [apply NoDup_set_order|].
    split; [intros feature; apply elem_of_set_order | apply entries_per_feature].
  - apply feature_entry_lines.
  - intros feature label path entry java_changes build_error Hrun Hb Hf Hin Hlacks ->.
    pose proof (feature_entry_lacks_only _ _ _ _ Hlacks) as Hentry.
    split; [done|]. split; [|split].
    + assert ((u "📁 기능 '" ++ feature ++ u "' 관련 문서 누락:" ++ nl) ++ label ++ path
                ∈ all_errors w staged_files build_error feature_names) as Hall.
      { rewrite all_errors_eq, check_docs_eq.
        rewrite bool_decide_eq_true_2 by (intros ->; by apply not_elem_of_empty in Hin).
        apply elem_of_app. right. apply elem_of_app. left. apply elem_of_app. right.
        apply list_elem_of_omap. exists feature. by rewrite elem_of_set_order. }
      destruct (main_deny_iff _ _ _ _ _ Hrun Hb Hf) as [[Hm _] | [_ He]].
      * eexists. split; [done|]. by apply occurs_in_report.
      * rewrite He in Hall. by apply elem_of_nil in Hall.
    + exists ((u "📁 기능 '" ++ feature ++ u "' 관련 문서 누락:" ++ nl) ++ label), [].
      rewrite app_nil_r. apply app_assoc.
    + intros Hslash other Hother Hne. by apply (entry_names_one w).
Qed.

(** C4 (amended). A staged path counts as a change of Java source exactly
    when it ends in [.java], the text [src/main] occurs in it, and the text
    [test] occurs nowhere in its lower-cased form; so no part of the
    lower-cased path is [test], and a path with [test] inside a longer
    part is left out as well. *)
Theorem java_change_by_substring f :
  (is_java_change f = true <->
   (exists stem, f = stem ++ u ".java") /\
   occurs_in (u "src/main") f /\
   ~ occurs_in (u "test") (lower f)) /\
  (is_java_change f = true -> u "test" ∉ str_split 47 (lower f)).
Proof.
  assert (is_java_change f = true <->
          (exists stem, f = stem ++ u ".java") /\
          occurs_in (u "src/main") f /\
          ~ occurs_in (u "test") (lower f)) as Hiff.
  { unfold is_java_change.
    rewrite !andb_true_iff, negb_true_iff, endswith_spec, contains_spec, contains_false.
    tauto. }
  split; [done|].
  intros (_ & _ & Hno)%Hiff Hin. by apply Hno, (str_split_occurs 47).
Qed.

(** C7 (amended). Inference raises nothing. For one path, the first part
    that is a layer name decides: the feature is the part right before it,
    lower-cased, and there is none when that layer name is the first part of
    the path. Only a path with no layer name among its parts falls back to
    the file name, whose leading capitalised word, lower-cased, is the
    feature, if it has one. The set returned holds what the files
    contribute, and nothing else. *)
Theorem feature_of_first_layer f java_files :
  (exists added, feature_of f = Val added) /\
  (forall pre layer post,
     str_split 47 f = pre ++ layer :: post -> no_layer pre -> is_layer layer = true ->
     feature_of f = Val (lower <$> last pre)) /\
  (no_layer (str_split 47 f) ->
   feature_of f = Val (lower <$> capital_word (path_stem f))) /\
  (exists names,
     extract_feature_names java_files = Val names /\
     forall name, name ∈ names <-> contributed java_files name).
Proof.
  split; [apply feature_of_total|].
  split; [intros pre layer post; apply feature_of_layer|].
  split; [apply feature_of_filename | apply extract_feature_names_spec].
Qed.

(** C9 (amended). The classifier answers yes exactly on the commands that
    hold [git], white space and [commit] with no word character right
    before [git] or right after [commit]. So a command that has [commit]
    only with a word character after it, or [git] only with a word
    character before it, or [git] never followed by white space, is no
    commit. On a command that is no commit the run ends in [Allow] with
    nothing done. *)
Theorem classifier_whole_word command :
  (is_git_commit command = true <-> names_commit command) /\
  ((forall a b, command = a ++ u "commit" ++ b -> is_word_at (head b) = true) ->
   is_git_commit command = false) /\
  ((forall a b, command = a ++ u "git" ++ b -> is_word_at (last a) = true) ->
   is_git_commit command = false) /\
  ((forall a b, command = a ++ u "git" ++ b -> is_space_at (head b) = false) ->
   is_git_commit command = false) /\
  (forall w, payload_command w command -> is_git_commit command = false -> main w = Allow).
Proof.
  split; [apply is_git_commit_spec|]. split; [|split; [|split]].
  - intros Hall. destruct (is_git_commit command) eqn:Hc; [|done].
    apply is_git_commit_spec in Hc as (pre & ws & post & -> & _ & _ & _ & Hq).
    specialize (Hall (pre ++ u "git" ++ ws) post). rewrite Hq in Hall.
    by rewrite <- !app_assoc in Hall; specialize (Hall eq_refl).
  - intros Hall. destruct (is_git_commit command) eqn:Hc; [|done].
    apply is_git_commit_spec in Hc as (pre & ws & post & -> & _ & _ & Hp & _).
    specialize (Hall pre (ws ++ u "commit" ++ post) eq_refl). by rewrite Hp in Hall.
  - intros Hall. destruct (is_git_commit command) eqn:Hc; [|done].
    apply is_git_commit_spec in Hc as (pre & ws & post & -> & Hne & Hsp & _ & _).
    specialize (Hall pre (ws ++ u "commit" ++ post) eq_refl).
    destruct ws as [|c ws]; [done|]. apply Forall_cons in Hsp as [Hc _].
    cbn [app head is_space_at] in Hall. by rewrite Hc in Hall.
  - intros w (input_data & Hin & Hcmd) Hc. unfold main. by rewrite Hin, Hcmd, Hc.
Qed.

(** C10. When the first part of a path is a layer name the scan breaks at
    once without a name: the file contributes no feature, whatever its file
    name is, and the set of features is the one of the other files. *)
Theorem leading_layer_contributes_nothing f layer rest :
  str_split 47 f = layer :: rest -> is_layer layer = true ->
  layer_scan (str_split 47 f) 0 (str_split 47 f) = Val (Broke None) /\
  feature_of f = Val None /\
  forall names java_files,
    extract_feature_names_from names (f :: java_files) =
    extract_feature_names_from names java_files.
Proof.
  intros Hs Hl.
  assert (layer_scan (str_split 47 f) 0 (str_split 47 f) = Val (Broke None)) as Hscan.
  { rewrite Hs. simpl. by rewrite Hl. }
  assert (feature_of f = Val None) as Hf.
  { unfold feature_of. by rewrite Hscan. }
  split; [done|]. split; [done|].
  intros names java_files. simpl. by rewrite Hf.
Qed.

End Claims.

(** ** The claims on concrete worlds

    The worlds are ASCII, where the tables are the ones of the
    interpreter. *)

(** C1 as stated fails: with every document on disk and no build, the two
    warnings alone (catalog not staged, no document staged) deny. *)
Lemma warnings_alone_deny :
  check_build documented_world = Val None /\
  path_exists documented_world (catalog_path documented_world) = true /\
  extract_feature_names [attendance_java] = Val {[u "attendance"]} /\
  missing_docs documented_world (u "attendance") = [] /\
  main documented_world =
    Deny (report documented_world [attendance_java] {[u "attendance"]}
            [catalog_unstaged_msg; no_staged_docs_msg]).
Proof. split; [|split; [|split; [|split]]]; by vm_compute. Qed.

(** C1 (amended) on the documented commit: it is denied. *)
Lemma deny_iff_any_entry_witness :
  exists reason, main documented_world = Deny reason.
Proof.
  apply (deny_iff_any_entry documented_world [attendance_java] [attendance_java]
           None {[u "attendance"]}).
  - run_by_evaluation.
  - by vm_compute.
  - by vm_compute.
  - right. right. decide_by_evaluation.
Defined.

(** C2 as stated fails: with no inferred feature the missing catalog goes
    unnoticed and the commit is allowed. *)
Lemma featureless_catalog_unchecked :
  policy_run featureless_world [util_java; u "src/docs/notes.md"] [util_java] /\
  path_exists featureless_world (catalog_path featureless_world) = false /\
  extract_feature_names [util_java] = Val ∅ /\
  main featureless_world = Allow.
Proof.
  split; [run_by_evaluation|]. split; [|split]; by vm_compute.
Qed.

(** C2 (amended) on the commit with no document on disk. *)
Lemma missing_catalog_denies_witness :
  exists reason, main undocumented_world = Deny reason /\
                 occurs_in (u "src/docs/ERROR_MESSAGES.md") reason.
Proof.
  apply (missing_catalog_denies undocumented_world [attendance_java] [attendance_java]
           None {[u "attendance"]}).
  - run_by_evaluation.
  - by vm_compute.
  - by vm_compute.
  - by vm_compute.
  - intros Hempty. by vm_compute in Hempty.
Defined.

(** C3 on the commit whose Gradle compilation runs out of time. *)
Lemma build_timeout_escapes_witness :
  check_build timeout_world = Exc TimeoutExpired /\
  main timeout_world = Uncaught TimeoutExpired.
Proof.
  apply (build_timeout_escapes timeout_world [attendance_java] [attendance_java]).
  - run_by_evaluation.
  - left. split; by vm_compute.
Defined.

(** C5 on the commit whose Gradle compilation fails with a long error
    stream, every document being there and the catalog staged: the report
    holds the first 300 characters of the stream and no other entry. *)
Lemma build_failure_dominates_witness :
  length long_stderr = 600%nat /\
  check_build verbose_build_world = Val (Some (gradle_failed ++ take 300 long_stderr)) /\
  (length (u "❌ " ++ gradle_failed ++ take 300 long_stderr) <= 316)%nat /\
  exists feature_names reason,
    extract_feature_names [attendance_java] = Val feature_names /\
    main verbose_build_world = Deny reason /\
    reason = report verbose_build_world [attendance_java] feature_names
               ((u "❌ " ++ gradle_failed ++ take 300 long_stderr) ::
                all_errors verbose_build_world
                  [attendance_java; u "src/docs/ERROR_MESSAGES.md"] None feature_names) /\
    occurs_in (u "❌ " ++ gradle_failed ++ take 300 long_stderr) reason.
Proof.
  split; [by vm_compute|].
  apply (proj1 (build_failure_dominates verbose_build_world)
           [attendance_java; u "src/docs/ERROR_MESSAGES.md"] [attendance_java]
           1%Z [] long_stderr gradle_failed).
  - run_by_evaluation.
  - done.
  - left. split; [by vm_compute|]. split; reflexivity.
Defined.

(** C6 outside a repository: the query fails and the commit is allowed. *)
Lemma empty_staged_set_allows_witness : main no_repository_world = Allow.
Proof.
  destruct (empty_staged_set_allows no_repository_world) as [Hquery Hallow].
  - eexists. eexists. split; reflexivity.
  - apply Hallow.
    apply (Hquery 128%Z [] (u "fatal: not a git repository")); [reflexivity | done].
Defined.

(** C8 on the commit whose feature lacks the user guide alone. *)
Lemma one_entry_per_feature_witness :
  feature_entry guideless_world (u "attendance") =
    Some (u "📁 기능 'attendance' 관련 문서 누락:" ++ nl ++
          u "  - 사용자매뉴얼: src/docs/user-guide/attendance.md") /\
  (exists reason,
     main guideless_world = Deny reason /\
     occurs_in (u "📁 기능 'attendance' 관련 문서 누락:" ++ nl ++
                u "  - 사용자매뉴얼: src/docs/user-guide/attendance.md") reason) /\
  occurs_in (u "src/docs/user-guide/attendance.md")
    (u "📁 기능 'attendance' 관련 문서 누락:" ++ nl ++
     u "  - 사용자매뉴얼: src/docs/user-guide/attendance.md") /\
  ((47 ∉ u "attendance") ->
   forall other,
     other ∈ document_paths (u "attendance") ->
     other <> u "src/docs/user-guide/attendance.md" ->
     ~ occurs_in other
         (u "📁 기능 'attendance' 관련 문서 누락:" ++ nl ++
          u "  - 사용자매뉴얼: src/docs/user-guide/attendance.md")).
Proof.
  apply (proj2 (proj2
           (one_entry_per_feature guideless_world {[u "attendance"]} [attendance_java]))
           (u "attendance") (u "  - 사용자매뉴얼: ") (u "src/docs/user-guide/attendance.md")
           _ [attendance_java] None).
  - run_by_evaluation.
  - by vm_compute.
  - by vm_compute.
  - by apply elem_of_singleton.
  - right. right. repeat split; by vm_compute.
  - by vm_compute.
Defined.

(** C4 as stated fails: the path ends in [.java], lies under [src/main/]
    and none of its parts is [test], yet [test] inside [attestation]
    leaves it out. *)
Lemma test_inside_part_excluded :
  endswith (u ".java") attestation_java = true /\
  startswith (u "src/main/") attestation_java = true /\
  Forall (fun part => lower part <> u "test") (str_split 47 attestation_java) /\
  is_java_change attestation_java = false.
Proof.
  split; [by vm_compute|]. split; [by vm_compute|]. split; [|by vm_compute].
  decide_by_evaluation.
Qed.

(** C4 (amended) on a controller of the main sources. *)
Lemma java_change_by_substring_witness :
  u "test" ∉ str_split 47 (lower attendance_java).
Proof.
  apply (proj2 (java_change_by_substring attendance_java)). by vm_compute.
Defined.

(** C7 as stated fails: no part after the first is a layer name and the
    file name starts with the capitalised word [Payroll], yet the file
    contributes no feature. *)
Lemma filename_fallback_skipped :
  no_layer (drop 1 (str_split 47 service_java)) /\
  capital_word (path_stem service_java) = Some (u "Payroll") /\
  feature_of service_java = Val None.
Proof.
  split; [|split; by vm_compute]. unfold no_layer. decide_by_evaluation.
Qed.

(** C7 (amended) on a path with a layer part: the part before it names the
    feature. *)
Lemma feature_of_first_layer_witness :
  feature_of attendance_java = Val (Some (u "attendance")).
Proof.
  etrans.
  - apply (proj1 (proj2 (feature_of_first_layer attendance_java []))
             [u "src"; u "main"; u "java"; u "com"; u "erp"; u "attendance"]
             (u "controller") [u "AttendanceController.java"]).
    + by vm_compute.
    + unfold no_layer. decide_by_evaluation.
    + by vm_compute.
  - by vm_compute.
Defined.

(** C9 as stated fails both ways. The command that commits in another
    directory holds the word [commit], yet it is no commit for the
    classifier and the gate lets it through; the command that writes a
    commit graph holds [commit] inside the longer word [commit-graph]
    alone, yet it is a commit for the classifier and the gate denies it. *)
Lemma commit_verb_misclassified :
  (u "commit" ∈ words (u "git -C /repo commit -m wip") /\
   is_git_commit (u "git -C /repo commit -m wip") = false /\
   main elsewhere_world = Allow) /\
  (words (u "git commit-graph write") = [u "git"; u "commit-graph"; u "write"] /\
   is_git_commit (u "git commit-graph write") = true /\
   exists reason, main commit_graph_world = Deny reason).
Proof.
  split; [split; [decide_by_evaluation | split; by vm_compute]|].
  split; [by vm_compute|]. split; [by vm_compute|].
  eexists. vm_compute. reflexivity.
Qed.

(** C9 (amended) on a commit with a flag, and on a command that only has
    the words inside longer ones. *)
Lemma classifier_whole_word_witness :
  is_git_commit (u "git commit -m wip") = true /\
  is_git_commit (u "cat legit commits.txt") = false /\
  main status_world = Allow.
Proof.
  split; [|split].
  - apply (proj1 (classifier_whole_word (u "git commit -m wip"))).
    exists [], [32], (u " -m wip").
    split; [by vm_compute|]. split; [done|]. split; [decide_by_evaluation|].
    split; by vm_compute.
  - by vm_compute.
  - apply (proj2 (proj2 (proj2 (proj2 (classifier_whole_word (u "cat legit commits.txt")))))
             status_world).
    + eexists. split; reflexivity.
    + by vm_compute.
Defined.

(** C10 on a path whose first part is [service]. *)
Lemma leading_layer_contributes_nothing_witness :
  layer_scan (str_split 47 service_java) 0 (str_split 47 service_java) = Val (Broke None) /\
  feature_of service_java = Val None /\
  forall names java_files,
    extract_feature_names_from names (service_java :: java_files) =
    extract_feature_names_from names java_files.
Proof.
  apply (leading_layer_contributes_nothing service_java (u "service")
           [u "src"; u "main"; u "java"; u "Payroll.java"]).
  - by vm_compute.
  - by vm_compute.
Defined.

(** * Further properties of the hook *)

Section Verdicts.
Context `{Unicode}.

Lemma filter_java_none staged_files :
  Forall (fun f => is_java_change f = false) staged_files ->
  filter (fun f => is_java_change f) staged_files = [].
Proof.
  induction 1 as [|f fs Hf _ IH]; [done|].
  rewrite filter_cons, IH. cbv beta. rewrite Hf.
  by rewrite decide_False by (by intros []).
Qed.

Lemma filter_java_some staged_files :
  filter (fun f => is_java_change f) staged_files <> [] ->
  exists f, f ∈ staged_files /\ is_java_change f = true.
Proof.
  intros Hne. destruct (filter _ staged_files) as [|f fs] eqn:Hfilter; [done|].
  exists f.
  assert (f ∈ filter (fun f => is_java_change f) staged_files) as Hin
    by (rewrite Hfilter; left).
  apply list_elem_of_filter in Hin as [Hj Hin]. split; [done|]. by apply Is_true_true.
Qed.

(** X1. A commit that stages no Java source is allowed: neither the build
    tool nor any document is consulted. *)
Theorem no_java_change_allows w staged_files :
  (exists command, payload_command w command) ->
  get_staged_files w = Val staged_files ->
  Forall (fun f => is_java_change f = false) staged_files ->
  main w = Allow.
Proof.
  intros (command & input_data & Hin & Hcmd) Hs Hnone. unfold main. rewrite Hin, Hcmd, Hs.
  rewrite (filter_java_none _ Hnone).
  destruct (negb (is_git_commit _)); [done|]. by destruct (negb (truthy staged_files)).
Qed.

(** X2. A commit is allowed when the build does not fail, the catalog and
    every document of every inferred feature are on disk, and some staged
    path under [src/docs/] holds the catalog's name. *)
Theorem documented_commit_allows w staged_files java_changes feature_names :
  policy_run w staged_files java_changes ->
  check_build w = Val None ->
  extract_feature_names java_changes = Val feature_names ->
  path_exists w (catalog_path w) = true ->
  (forall feature, feature ∈ feature_names ->
     path_exists w (spec_path w feature) ||
       path_exists w (spec_path w (capitalize feature)) = true /\
     path_exists w (arch_path w feature) = true /\
     path_exists w (guide_path w feature) = true) ->
  (exists f, f ∈ staged_files /\ startswith (u "src/docs/") f = true /\
             contains (u "ERROR_MESSAGES.md") f = true) ->
  main w = Allow.
Proof.
  intros Hrun Hb Hf Hcat Hdocs (f & Hin & Hdoc & Hname).
  destruct (main_deny_iff _ _ _ _ _ Hrun Hb Hf) as [[_ Hne] | [Hm _]]; [|done].
  exfalso. apply (all_errors_not_nil _ _ _ _ Hb) in Hne.
  destruct Hne as [Hbuild | [[_ [Hc | [Hc | (feature & Hfeat & Hmiss)]]] | Hnone]].
  - by apply is_Some_None in Hbuild.
  - congruence.
  - assert (existsb (contains (u "ERROR_MESSAGES.md")) staged_files = true); [|congruence].
    apply existsb_exists. exists f. by rewrite <- list_elem_of_In.
  - destruct (Hdocs feature Hfeat) as (Hspec & Harch & Hguide).
    by rewrite missing_docs_eq, Hspec, Harch, Hguide in Hmiss.
  - rewrite Forall_forall in Hnone. specialize (Hnone f Hin). congruence.
Qed.



Lemma check_build_cases w :
  check_build w =
  if path_exists w (gradlew_path w) then
    match gradlew_compile w with
    | Completed returncode _ stderr =>
      if (returncode =? 0)%Z then Val None
      else Val (Some (gradle_failed ++ take 300 stderr))
    | Raises e => Exc e
    end
  else if path_exists w (pom_path w) then
    match mvn_compile w with
    | Completed returncode _ stderr =>
      if (returncode =? 0)%Z then Val None
      else Val (Some (maven_failed ++ take 300 stderr))
    | Raises e => Exc e
    end
  else Val None.
Proof.
  unfold check_build. fold (gradlew_path w) (pom_path w).
  destruct (path_exists w (gradlew_path w)).
  - destruct (gradlew_compile w) as [rc out err|e]; [|done].
    unfold subprocess_run, mbind, res_bind. cbv beta iota. by destruct (rc =? 0)%Z.
  - destruct (path_exists w (pom_path w)); [|done].
    destruct (mvn_compile w) as [rc out err|e]; [|done].
    unfold subprocess_run, mbind, res_bind. cbv beta iota. by destruct (rc =? 0)%Z.
Qed.

(** X4. A build message comes only from a tool that ran to its end with a
    non-zero exit, Gradle when its wrapper is there and Maven otherwise; it
    is the heading of that tool and the first 300 characters of its error
    stream at most, 314 characters in all at most. *)
Theorem build_message_origin w e :
  check_build w = Val (Some e) ->
  (length e <= 314)%nat /\
  exists returncode stdout stderr,
    returncode <> 0%Z /\
    ((path_exists w (gradlew_path w) = true /\
      gradlew_compile w = Completed returncode stdout stderr /\
      e = gradle_failed ++ take 300 stderr) \/
     (path_exists w (gradlew_path w) = false /\ path_exists w (pom_path w) = true /\
      mvn_compile w = Completed returncode stdout stderr /\
      e = maven_failed ++ take 300 stderr)).
Proof.
  rewrite check_build_cases.
  destruct (path_exists w (gradlew_path w)).
  - destruct (gradlew_compile w) as [rc out err|e']; [|done].
    destruct (rc =? 0)%Z eqn:Hrc; [done|]. intros Heq.
    assert (e = gradle_failed ++ take 300 err) as -> by congruence. split.
    + rewrite length_app, length_take.
      replace (length gradle_failed) with 14%nat by (by vm_compute). lia.
    + exists rc, out, err. apply Z.eqb_neq in Hrc. split; [done|]. by left.
  - destruct (path_exists w (pom_path w)); [|done].
    destruct (mvn_compile w) as [rc out err|e']; [|done].
    destruct (rc =? 0)%Z eqn:Hrc; [done|]. intros Heq.
    assert (e = maven_failed ++ take 300 err) as -> by congruence. split.
    + rewrite length_app, length_take.
      replace (length maven_failed) with 13%nat by (by vm_compute). lia.
    + exists rc, out, err. apply Z.eqb_neq in Hrc. split; [done|]. by right.
Qed.

(** X5. A denial is only ever written for a command that names the commit
    and a staged set that holds a Java source; its reason is the report of
    at least one entry. *)
Theorem deny_only_java_commits w reason :
  main w = Deny reason ->
  exists command staged_files build_error feature_names,
    payload_command w command /\ names_commit command /\
    get_staged_files w = Val staged_files /\
    (exists f, f ∈ staged_files /\ is_java_change f = true) /\
    all_errors w staged_files build_error feature_names <> [] /\
    reason = report w (filter (fun f => is_java_change f) staged_files) feature_names
               (all_errors w staged_files build_error feature_names).
Proof.
  unfold main. destruct (stdin w) as [input_data| |e] eqn:Hin; [|done..].
  destruct (command_of input_data) as [command|e] eqn:Hcmd; [|done].
  destruct (is_git_commit command) eqn:Hc; [|done]. simpl.
  destruct (get_staged_files w) as [staged_files|e]; [|done].
  destruct (negb (truthy staged_files)); [done|].
  destruct (negb (truthy (filter _ staged_files))) eqn:Hj; [done|].
  destruct (check_build w) as [build_error|e]; [|done].
  destruct (extract_feature_names _) as [feature_names|e]; [|done].
  destruct (truthy (all_errors _ _ _ _)) eqn:Herr; [|done].
  intros [= <-]. exists command, staged_files, build_error, feature_names.
  split; [by exists input_data|]. split; [by apply is_git_commit_spec|]. split; [done|].
  split; [|split; [by apply truthy_true|done]].
  apply filter_java_some, truthy_true. by apply negb_false_iff in Hj.
Qed.

(** X6. The entries of a report come in a fixed order: the build entry,
    the catalog entry, the entries of the features, the warning about
    staged documents; one of each at most, and one per feature at most. *)
Theorem entries_in_order (w : World) (staged_files : list str)
    (build_error : option str) (feature_names : gset str) :
  exists build catalog per_feature staged,
    all_errors w staged_files build_error feature_names =
      build ++ catalog ++ per_feature ++ staged /\
    (length build <= 1)%nat /\
    (forall m, m ∈ build -> exists e, build_error = Some e /\ m = u "❌ " ++ e) /\
    (length catalog <= 1)%nat /\
    (forall m, m ∈ catalog -> m = catalog_missing_msg \/ m = catalog_unstaged_msg) /\
    (length per_feature <= size feature_names)%nat /\
    (forall m, m ∈ per_feature ->
       exists feature, feature ∈ feature_names /\ feature_entry w feature = Some m) /\
    (length staged <= 1)%nat /\
    (forall m, m ∈ staged -> m = no_staged_docs_msg).
Proof.
  exists (if truthy_opt build_error then [u "❌ " ++ default [] build_error] else []),
    (if bool_decide (feature_names ≠ ∅) then catalog_check w staged_files else []),
    (if bool_decide (feature_names ≠ ∅)
     then omap (feature_entry w) (set_order w feature_names) else []),
    (if truthy_opt (check_staged_docs staged_files) then [no_staged_docs_msg] else []).
  split.
  { rewrite all_errors_eq, check_docs_eq.
    destruct (bool_decide (feature_names ≠ ∅)); [by rewrite <- !app_assoc | done]. }
  split; [destruct (truthy_opt build_error); cbn [length]; lia|]. split.
  { destruct build_error as [e|]; [|by intros m ?%elem_of_nil].
    cbn [truthy_opt default]. destruct (truthy e); [|by intros m ?%elem_of_nil].
    intros m ->%list_elem_of_singleton. by exists e. }
  split.
  { destruct (bool_decide _); [|cbn [length]; lia]. unfold catalog_check.
    repeat destruct (negb _); cbn [length]; lia. }
  split.
  { destruct (bool_decide _); [|by intros m ?%elem_of_nil]. unfold catalog_check.
    repeat destruct (negb _); intros m Hm.
    - left. by apply list_elem_of_singleton in Hm.
    - right. by apply list_elem_of_singleton in Hm.
    - by apply elem_of_nil in Hm. }
  split.
  { destruct (bool_decide _); [|cbn [length]; lia].
    rewrite length_omap_filter. etrans; [apply length_filter|].
    apply Nat.eq_le_incl, Permutation_length, set_order_perm. }
  split.
  { destruct (bool_decide _); [|by intros m ?%elem_of_nil].
    intros m (feature & Hin & Hm)%list_elem_of_omap. exists feature.
    by apply elem_of_set_order in Hin. }
  split; [destruct (truthy_opt (check_staged_docs staged_files)); cbn [length]; lia|].
  destruct (truthy_opt _); [|by intros m ?%elem_of_nil].
  by intros m ->%list_elem_of_singleton.
Qed.

Lemma short_command_no_commit command :
  is_git_commit command = true -> (10 <= length command)%nat.
Proof.
  intros (pre & ws & post & -> & Hne & _)%is_git_commit_spec.
  rewrite !length_app. destruct ws; [done|].
  replace (length (u "git")) with 3%nat by (by vm_compute).
  replace (length (u "commit")) with 6%nat by (by vm_compute).
  cbn [length]. lia.
Qed.

(** X7. What the payload does to the run before anything else is looked
    at. A payload that is not JSON ends the hook with status 1, and any
    other exception of [json.load] leaves [main]. A payload
    that is no dictionary, or whose [tool_input] is none, ends it with an
    [AttributeError]; a command that is no string, with a [TypeError]. A
    payload with no [tool_input], or with no command in it, is allowed,
    the command being taken as empty; so is a command of fewer than ten
    characters. *)
Theorem payload_shapes w :
  (stdin w = NotJSON -> main w = Rejected) /\
  (forall e, stdin w = LoadRaises e -> main w = Uncaught e) /\
  (forall input_data,
     stdin w = Decoded input_data -> is_dict input_data = false ->
     main w = Uncaught AttributeError) /\
  (forall fields,
     stdin w = Decoded (JObj fields) ->
     match field (u "tool_input") fields with
     | None => main w = Allow
     | Some tool_input =>
       (is_dict tool_input = false -> main w = Uncaught AttributeError) /\
       (forall input,
          tool_input = JObj input ->
          match field (u "command") input with
          | None => main w = Allow
          | Some command =>
            (is_str command = false -> main w = Uncaught TypeError) /\
            (forall text,
               command = JStr text -> (length text < 10)%nat -> main w = Allow)
          end)
     end).
Proof.
  assert (is_git_commit [] = false) as Hempty.
  { destruct (is_git_commit []) eqn:Hc; [|done].
    apply short_command_no_commit in Hc. cbn [length] in Hc. lia. }
  split; [|split; [|split]].
  - intros Hin. unfold main. by rewrite Hin.
  - intros e Hin. unfold main. by rewrite Hin.
  - intros input_data Hin Hd. unfold main. rewrite Hin. by destruct input_data.
  - intros fields Hin. unfold main, command_of. rewrite Hin. cbn [dict_get].
    destruct (field (u "tool_input") fields) as [tool_input|];
      cbn [from_option id mbind res_bind dict_get field re_subject].
    + split; [intros Hd; by destruct tool_input|].
      intros input ->. cbn [dict_get].
      destruct (field (u "command") input) as [command|];
        cbn [from_option id mbind res_bind re_subject].
      * split; [intros Hs; by destruct command|].
        intros text -> Hlen. cbn [re_subject].
        destruct (is_git_commit text) eqn:Hc; [|done].
        apply short_command_no_commit in Hc. lia.
      * by rewrite Hempty.
    + by rewrite Hempty.
Qed.

(** X8. A commit stays a commit inside a longer command: text before and
    after it, set off by characters that are no word characters, does not
    hide it. *)
Theorem commit_in_compound_command before after command s1 s2 :
  isword s1 = false -> isword s2 = false ->
  is_git_commit command = true ->
  is_git_commit (before ++ s1 :: command ++ s2 :: after) = true.
Proof.
  intros Hs1 Hs2 (pre & ws & post & -> & Hne & Hsp & Hp & Hq)%is_git_commit_spec.
  apply is_git_commit_spec.
  exists (before ++ s1 :: pre), ws, (post ++ s2 :: after).
  split; [by repeat (rewrite <- ?app_assoc; cbn [app])|].
  split; [done|]. split; [done|]. split.
  - rewrite last_app, last_cons. by destruct (last pre).
  - destruct post; [done|]. done.
Qed.

End Verdicts.

Section StagedFiles.
Context `{Unicode}.

Lemma lstrip_split s :
  exists p, s = p ++ lstrip s /\ Forall (fun c => isspace c = true) p.
Proof.
  induction s as [|c s (p & Hs & Hp)]; cbn [lstrip].
  - by exists [].
  - destruct (isspace c) eqn:Hc.
    + exists (c :: p). split; [by rewrite Hs at 1 | by constructor].
    + by exists [].
Qed.

Lemma lstrip_head s : is_space_at (head (lstrip s)) = false.
Proof.
  induction s as [|c s IH]; cbn [lstrip]; [done|].
  destruct (isspace c) eqn:Hc; [done|]. by cbn.
Qed.

Lemma lstrip_id s : is_space_at (head s) = false -> lstrip s = s.
Proof. destruct s as [|c s]; cbn; [done|]. by intros ->. Qed.

Lemma strip_split s : exists p q, s = p ++ strip s ++ q.
Proof.
  unfold strip. destruct (lstrip_split s) as (p & Hs & _).
  destruct (lstrip_split (reverse (lstrip s))) as (q & Hr & _).
  exists p, (reverse q). rewrite <- reverse_app, <- Hr, reverse_involutive. done.
Qed.

Lemma strip_ends s :
  is_space_at (head (strip s)) = false /\ is_space_at (last (strip s)) = false.
Proof.
  unfold strip. rewrite last_reverse. split; [|apply lstrip_head].
  destruct (lstrip_split (reverse (lstrip s))) as (q & Hr & _).
  set (z := lstrip (reverse (lstrip s))) in *.
  apply (f_equal reverse) in Hr. rewrite reverse_involutive, reverse_app in Hr.
  pose proof (lstrip_head s) as Hh. rewrite Hr in Hh.
  destruct (reverse z); [done|]. done.
Qed.

Lemma strip_idemp s : strip (strip s) = strip s.
Proof.
  destruct (strip_ends s) as [Hhead Hlast]. unfold strip at 1.
  rewrite (lstrip_id (strip s)) by done.
  rewrite lstrip_id by (by rewrite head_reverse).
  apply reverse_involutive.
Qed.

Lemma str_split_no_sep sep s part : part ∈ str_split sep s -> sep ∉ part.
Proof.
  revert part. induction s as [|c s IH]; intros part; cbn [str_split].
  - intros ->%list_elem_of_singleton. apply not_elem_of_nil.
  - destruct (char_eqb c sep) eqn:Hc.
    + intros [->|Hin]%elem_of_cons; [apply not_elem_of_nil | by apply IH].
    + destruct (str_split sep s) as [|h t].
      * intros ->%list_elem_of_singleton.
        intros [->|?%elem_of_nil]%elem_of_cons; [|done].
        unfold char_eqb in Hc. by rewrite N.eqb_refl in Hc.
      * intros [->|Hin]%elem_of_cons.
        -- intros [->|Hin]%elem_of_cons.
           ++ unfold char_eqb in Hc. by rewrite N.eqb_refl in Hc.
           ++ by apply (IH h); [left|].
        -- apply IH. by right.
Qed.

(** X9. Every staged path the hook works with is a line of the query's
    output without the white space around it: it is not empty, has no white
    space at either end and no line feed inside, and occurs in the
    output. *)
Theorem staged_files_clean w staged_files :
  get_staged_files w = Val staged_files ->
  Forall (fun f => f <> [] /\ strip f = f /\ 10 ∉ f) staged_files /\
  forall returncode stdout stderr,
    git_diff_cached w = Completed returncode stdout stderr ->
    Forall (fun f => occurs_in f stdout) staged_files.
Proof.
  unfold get_staged_files.
  destruct (git_diff_cached w) as [rc out err|e]; [|done].
  unfold subprocess_run, mbind, res_bind. cbv beta iota.
  destruct (negb (rc =? 0)%Z).
  { intros [= <-]. split; [constructor|]. intros; constructor. }
  intros [= <-].
  assert (forall f, f ∈ strip <$> filter (fun f => truthy (strip f))
                                    (str_split 10 (strip out)) ->
            exists line, f = strip line /\ strip line <> [] /\
                         line ∈ str_split 10 (strip out)) as Hlines.
  { intros f (line & -> & [Ht Hin]%list_elem_of_filter)%list_elem_of_fmap.
    exists line. split; [done|]. split; [|done]. by destruct (strip line). }
  split.
  - apply Forall_forall. intros f (line & -> & Hne & Hin)%Hlines.
    split; [done|]. split; [apply strip_idemp|].
    apply str_split_no_sep in Hin.
    destruct (strip_split line) as (p & q & Hline). rewrite Hline in Hin.
    intros Hnl. apply Hin. apply elem_of_app. right. apply elem_of_app. by left.
  - intros returncode stdout stderr [= _ <- _].
    apply Forall_forall. intros f (line & -> & _ & Hin)%Hlines.
    apply occurs_in_trans with line.
    { destruct (strip_split line) as (p & q & Hline). by exists p, q. }
    apply occurs_in_trans with (strip out); [by apply (str_split_occurs 10)|].
    destruct (strip_split out) as (p & q & Hout). by exists p, q.
Qed.

End StagedFiles.

Section FeatureSets.
Context `{Unicode}.

(** X10. The set of features is the union over the files: that of two
    lists put together is the union of their sets, and two lists with the
    same files, in any order and number, give the same set. *)
Theorem extract_feature_names_union java_files1 java_files2 :
  (exists names1 names2,
     extract_feature_names java_files1 = Val names1 /\
     extract_feature_names java_files2 = Val names2 /\
     extract_feature_names (java_files1 ++ java_files2) = Val (names1 ∪ names2)) /\
  ((forall f, f ∈ java_files1 <-> f ∈ java_files2) ->
   extract_feature_names java_files1 = extract_feature_names java_files2).
Proof.
  destruct (extract_feature_names_spec java_files1) as (names1 & H1 & Hin1).
  destruct (extract_feature_names_spec java_files2) as (names2 & H2 & Hin2).
  destruct (extract_feature_names_spec (java_files1 ++ java_files2))
    as (names & H12 & Hin).
  split.
  - exists names1, names2. split; [done|]. split; [done|].
    rewrite H12. f_equal. apply set_eq. intros name.
    rewrite elem_of_union, Hin, Hin1, Hin2. unfold contributed.
    setoid_rewrite elem_of_app. split.
    + intros (f & [?|?] & ?); eauto.
    + intros [(f & ? & ?)|(f & ? & ?)]; eauto.
  - intros Hsame. rewrite H1, H2. f_equal. apply set_eq. intros name.
    rewrite Hin1, Hin2. unfold contributed. by setoid_rewrite Hsame.
Qed.

End FeatureSets.

Section FeatureNames.
Context `{Unicode}.

Lemma rfind_none c s : c ∉ s -> rfind c s = None.
Proof.
  induction s as [|a s IH]; [done|].
  intros [Ha Hs]%not_elem_of_cons. cbn [rfind]. rewrite IH by done.
  destruct (char_eqb a c) eqn:Heq; [|done]. by apply char_eqb_eq in Heq as ->.
Qed.

Lemma rfind_last c a b : c ∉ b -> rfind c (a ++ c :: b) = Some (length a).
Proof.
  intros Hb. induction a as [|x a IH]; cbn [app rfind length].
  - rewrite rfind_none by done. unfold char_eqb. by rewrite N.eqb_refl.
  - by rewrite IH.
Qed.

(** The stem of a Java file in a directory is its name without [.java]. *)
Lemma path_stem_java dir base :
  47 ∉ base -> base <> [] -> path_stem (dir ++ 47 :: base ++ u ".java") = base.
Proof.
  intros Hslash Hne.
  assert (path_name (dir ++ 47 :: base ++ u ".java") = base ++ u ".java") as Hname.
  { unfold path_name. rewrite str_split_app_sep, (str_split_whole 47 (base ++ u ".java")).
    - rewrite filter_app, filter_cons, filter_nil.
      rewrite decide_True; [by rewrite last_snoc|].
      split; [by destruct base|].
      intros Heq%(f_equal length). rewrite length_app in Heq.
      replace (length (u ".java")) with 5%nat in Heq by (by vm_compute).
      replace (length (u ".")) with 1%nat in Heq by (by vm_compute). lia.
    - apply not_elem_of_app. split; [done|]. decide_by_evaluation. }
  unfold path_stem. rewrite Hname.
  change (u ".java") with (46 :: u "java").
  rewrite rfind_last by decide_by_evaluation.
  replace ((0 <? length base)%nat) with true
    by (symmetry; apply Nat.ltb_lt; destruct base; [done | cbn; lia]).
  replace (length (base ++ 46 :: u "java")) with (length base + 5)%nat
    by (rewrite length_app; f_equal; by vm_compute).
  replace ((length base <? length base + 5 - 1)%nat) with true
    by (symmetry; apply Nat.ltb_lt; lia).
  cbn [andb]. by rewrite take_app_length.
Qed.

Lemma leading_Forall p s : Forall (fun c => p c = true) (leading p s).
Proof.
  induction s as [|c s IH]; cbn [leading]; [constructor|].
  destruct (p c) eqn:Hc; by constructor.
Qed.

Lemma in_range_ascii lo hi c : hi < 128 -> in_range lo hi c = true -> is_ascii c.
Proof.
  unfold in_range, is_ascii. intros Hhi [_ Hc%N.leb_le]%andb_true_iff. lia.
Qed.

(** A capitalised word is made of ASCII letters, an upper-case one and
    lower-case ones, and stands at the head of the name. *)
Lemma capital_word_shape s word :
  capital_word s = Some word ->
  (exists rest, s = word ++ rest) /\ (2 <= length word)%nat /\
  Forall is_ascii word /\
  Forall (fun c => in_range 97 122 c = true) (map ascii_lower word).
Proof.
  unfold capital_word. destruct s as [|a [|b t]]; [done..|].
  destruct (in_range 65 90 a) eqn:Ha; [|done].
  destruct (in_range 97 122 b) eqn:Hb; [|done]. cbn [andb]. intros [= <-].
  pose proof (leading_Forall (in_range 97 122) t) as Hl.
  split; [|split; [cbn; lia|split]].
  - destruct (leading_prefix (in_range 97 122) t) as [r Hr]. exists r.
    cbn [app]. by rewrite <- Hr.
  - constructor; [by apply (in_range_ascii 65 90)|].
    constructor; [by apply (in_range_ascii 97 122)|].
    eapply Forall_impl; [exact Hl|]. intros c. by apply in_range_ascii.
  - cbn [map]. constructor.
    { unfold ascii_lower. rewrite Ha. unfold in_range in *.
      apply andb_true_iff in Ha as [Hlo%N.leb_le Hhi%N.leb_le].
      apply andb_true_iff. split; apply N.leb_le; lia. }
    assert (forall c, in_range 97 122 c = true -> in_range 97 122 (ascii_lower c) = true)
      as Hlow.
    { intros c Hc. unfold ascii_lower.
      replace (in_range 65 90 c) with false; [done|].
      symmetry. unfold in_range in *.
      apply andb_true_iff in Hc as [Hlo%N.leb_le Hhi%N.leb_le].
      apply andb_false_iff. right. apply N.leb_gt. lia. }
    constructor; [by apply Hlow|].
    apply Forall_fmap. eapply Forall_impl; [exact Hl|]. intros c. by apply Hlow.
Qed.

(** X11. For a Java file in a directory, with no layer name among the parts
    of its path, the feature is the leading capitalised word of the file
    name, lower-cased: two letters at least, lower-case ASCII letters all.
    A name that starts otherwise gives no feature, and of a name of several
    capitalised words only the first one counts. *)
Theorem filename_feature_shape dir base :
  47 ∉ base -> base <> [] ->
  no_layer (str_split 47 (dir ++ 47 :: base ++ u ".java")) ->
  feature_of (dir ++ 47 :: base ++ u ".java") =
    Val (map ascii_lower <$> capital_word base) /\
  forall word,
    capital_word base = Some word ->
    (exists rest, base = word ++ rest) /\ (2 <= length word)%nat /\
    Forall (fun c => in_range 97 122 c = true) (map ascii_lower word).
Proof.
  intros Hslash Hne Hno. split.
  - rewrite (feature_of_filename _ Hno), path_stem_java by done.
    destruct (capital_word base) as [word|] eqn:Hw; [|done].
    apply capital_word_shape in Hw as (_ & _ & Hascii & _).
    cbn. by rewrite lower_ascii.
  - intros word (? & ? & _ & ?)%capital_word_shape. done.
Qed.

End FeatureNames.

Section ProbedPaths.
Context `{Unicode}.

Lemma startswith_slash b : head b <> Some 47 -> startswith (u "/") b = false.
Proof.
  destruct b as [|c b]; [done|]. intros Hc.
  change (startswith (u "/") (c :: b)) with (char_eqb 47 c && true).
  destruct (char_eqb 47 c) eqn:Heq; [|done].
  apply char_eqb_eq in Heq as <-. done.
Qed.

Lemma endswith_slash path c : c <> 47 -> endswith (u "/") (path ++ [c]) = false.
Proof.
  intros Hc. unfold endswith. rewrite reverse_snoc.
  change (startswith (reverse (u "/")) (c :: reverse path)) with (char_eqb 47 c && true).
  destruct (char_eqb 47 c) eqn:Heq; [|done].
  by apply char_eqb_eq in Heq as <-.
Qed.

(** Joining a name that does not start with a slash to a path that does
    not end with one puts a slash between the two. *)
Lemma path_join2_plain path c b :
  c <> 47 -> head b <> Some 47 ->
  path_join2 (path ++ [c]) b = (path ++ [c]) ++ u "/" ++ b.
Proof.
  intros Hc Hb. unfold path_join2.
  rewrite startswith_slash, endswith_slash by done.
  by destruct path.
Qed.

(** The documentation root is [src/docs] under the project directory. *)
Lemma docs_dir_of_eq w :
  exists p, docs_dir_of w = p ++ u "src/docs" /\
            (p = project_dir w \/ p = project_dir w ++ u "/").
Proof.
  unfold docs_dir_of, os_path_join. cbn [foldl].
  assert (exists p, path_join2 (project_dir w) (u "src") = p ++ u "src" /\
                    (p = project_dir w \/ p = project_dir w ++ u "/")) as (p & -> & Hp).
  { unfold path_join2. rewrite startswith_slash by done.
    destruct (negb (truthy (project_dir w)) || endswith (u "/") (project_dir w)).
    - exists (project_dir w). by split; [|left].
    - exists (project_dir w ++ u "/"). split; [by rewrite <- app_assoc | by right]. }
  exists p. split; [|done].
  change (p ++ u "src") with (p ++ u "sr" ++ [99]). rewrite app_assoc.
  rewrite path_join2_plain by done. by rewrite <- !app_assoc.
Qed.

Lemma docs_dir_of_last w : exists p, docs_dir_of w = p ++ [115].
Proof.
  destruct (docs_dir_of_eq w) as (p & -> & _).
  exists (p ++ u "src/doc"). by rewrite <- app_assoc.
Qed.

Lemma ascii_lower_slash c : ascii_lower c = 47 -> c = 47.
Proof.
  unfold ascii_lower. destruct (in_range 65 90 c) eqn:Hc; [|done].
  unfold in_range in Hc. apply andb_true_iff in Hc as [Hlo%N.leb_le _]. lia.
Qed.

Lemma ascii_upper_slash c : ascii_upper c = 47 -> c = 47.
Proof.
  unfold ascii_upper. destruct (in_range 97 122 c) eqn:Hc; [|done].
  unfold in_range in Hc. apply andb_true_iff in Hc as [Hlo%N.leb_le _]. lia.
Qed.

Lemma occurs_in_Forall (P : char -> Prop) sub s :
  occurs_in sub s -> Forall P s -> Forall P sub.
Proof.
  intros (a & b & ->) Hall.
  by apply Forall_app in Hall as [_ [Hsub _]%Forall_app].
Qed.

(** The feature of an ASCII path holds no slash. *)
Lemma feature_no_slash f name :
  Forall is_ascii f -> feature_of f = Val (Some name) ->
  (47 ∉ name) /\ Forall is_ascii name.
Proof.
  intros Hascii.
  destruct (first_layer (str_split 47 f)) as [Hno | (pre & layer & post & Hs & Hpre & Hl)].
  - rewrite (feature_of_filename _ Hno).
    destruct (capital_word (path_stem f)) as [word|] eqn:Hw; [|done].
    apply capital_word_shape in Hw as (_ & _ & Hword & Hlow).
    cbn. rewrite lower_ascii by done. intros [= <-]. split.
    + intros Hin. rewrite Forall_forall in Hlow. by specialize (Hlow _ Hin).
    + eapply Forall_impl; [exact Hlow|]. intros c. by apply in_range_ascii.
  - rewrite (feature_of_layer _ _ _ _ Hs Hpre Hl).
    destruct (last pre) as [seg|] eqn:Hlast; [|done]. cbn. intros [= <-].
    assert (seg ∈ str_split 47 f) as Hin.
    { rewrite Hs. apply elem_of_app. left.
      apply last_Some in Hlast as [pre' ->]. apply elem_of_app. right. left. }
    assert (Forall is_ascii seg) as Hseg
      by (eapply occurs_in_Forall; [by apply (str_split_occurs 47)|done]).
    rewrite lower_ascii by done. split.
    + intros (c & Hc%eq_sym%ascii_lower_slash & Hcin)%list_elem_of_fmap. subst c.
      by apply str_split_no_sep in Hin.
    + apply Forall_fmap. eapply Forall_impl; [exact Hseg|].
      intros c Hc. unfold ascii_lower, is_ascii in *. cbn.
      destruct (in_range 65 90 c) eqn:Hr; [|done].
      unfold in_range in Hr. apply andb_true_iff in Hr as [_ Hhi%N.leb_le]. lia.
Qed.

Lemma head_app_name name (suffix : str) c :
  47 ∉ name -> head suffix = Some c -> c <> 47 -> head (name ++ suffix) <> Some 47.
Proof.
  intros Hname Hs Hc. destruct name as [|a name]; cbn.
  - rewrite Hs. congruence.
  - intros [= ->]. apply Hname. left.
Qed.

(** X12. The documents the hook looks for lie under the documentation root:
    the name of a feature inferred from an ASCII path holds no slash, so the
    catalog, the specification under both names, the architecture note and
    the user guide are at the fixed places under [src/docs] of the project
    directory, and no staged path can send a probe elsewhere. *)
Theorem probed_paths w f name :
  Forall is_ascii f -> feature_of f = Val (Some name) ->
  (47 ∉ name) /\
  (exists p, docs_dir_of w = p ++ u "src/docs" /\
             (p = project_dir w \/ p = project_dir w ++ u "/")) /\
  catalog_path w = docs_dir_of w ++ u "/ERROR_MESSAGES.md" /\
  spec_path w name = docs_dir_of w ++ u "/" ++ name ++ u "_기능명세서.md" /\
  spec_path w (capitalize name) =
    docs_dir_of w ++ u "/" ++ capitalize name ++ u "_기능명세서.md" /\
  arch_path w name = docs_dir_of w ++ u "/architecture/" ++ name ++ u ".md" /\
  guide_path w name = docs_dir_of w ++ u "/user-guide/" ++ name ++ u ".md".
Proof.
  intros Hascii Hf. destruct (feature_no_slash _ _ Hascii Hf) as [Hslash Hname].
  split; [done|]. split; [apply docs_dir_of_eq|].
  destruct (docs_dir_of_last w) as [d Hd].
  unfold catalog_path, spec_path, arch_path, guide_path, os_path_join. cbn [foldl].
  rewrite Hd.
  assert (47 ∉ capitalize name) as Hcap.
  { rewrite capitalize_ascii by done. destruct name as [|c name]; [apply not_elem_of_nil|].
    cbn [ascii_capitalize]. apply not_elem_of_cons in Hslash as [Hc Hrest].
    apply not_elem_of_cons. split.
    - intros Heq%eq_sym%ascii_upper_slash. congruence.
    - intros (c' & Hc'%eq_sym%ascii_lower_slash & Hin)%list_elem_of_fmap. by subst c'. }
  split; [by rewrite path_join2_plain|].
  split; [rewrite path_join2_plain; [done|done|by eapply head_app_name]|].
  split; [rewrite path_join2_plain; [done|done|by eapply head_app_name]|].
  split.
  - rewrite (path_join2_plain d 115 (u "architecture")) by done.
    change (u "architecture") with (u "architectur" ++ [101]).
    rewrite !app_assoc, path_join2_plain; [|done|by eapply head_app_name].
    by rewrite <- !app_assoc.
  - rewrite (path_join2_plain d 115 (u "user-guide")) by done.
    change (u "user-guide") with (u "user-guid" ++ [101]).
    rewrite !app_assoc, path_join2_plain; [|done|by eapply head_app_name].
    by rewrite <- !app_assoc.
Qed.

End ProbedPaths.

(** ** The further properties on concrete worlds *)

(** X1 on a commit of two documents, whose build would run out of time. *)
Lemma no_java_change_allows_witness : main docs_only_world = Allow.
Proof.
  apply (no_java_change_allows docs_only_world [u "src/docs/notes.md"; u "README.md"]).
  - eexists. eexists. split; reflexivity.
  - by vm_compute.
  - decide_by_evaluation.
Defined.

(** X2 on the commit that stages the catalog with the Java file. *)
Lemma documented_commit_allows_witness : main complete_world = Allow.
Proof.
  apply (documented_commit_allows complete_world
           [attendance_java; u "src/docs/ERROR_MESSAGES.md"] [attendance_java]
           {[u "attendance"]}).
  - run_by_evaluation.
  - by vm_compute.
  - by vm_compute.
  - by vm_compute.
  - intros feature ->%elem_of_singleton. split; [|split]; by vm_compute.
  - exists (u "src/docs/ERROR_MESSAGES.md"). split; [|split; by vm_compute].
    apply elem_of_cons. right. left.
Defined.


(** X4 on the commit whose Gradle compilation fails. *)
Lemma build_message_origin_witness :
  (length (gradle_failed ++ u "AttendanceController.java:12: error: ';' expected")
   <= 314)%nat /\
  exists returncode stdout stderr,
    returncode <> 0%Z /\
    ((path_exists broken_build_world (gradlew_path broken_build_world) = true /\
      gradlew_compile broken_build_world = Completed returncode stdout stderr /\
      gradle_failed ++ u "AttendanceController.java:12: error: ';' expected" =
        gradle_failed ++ take 300 stderr) \/
     (path_exists broken_build_world (gradlew_path broken_build_world) = false /\
      path_exists broken_build_world (pom_path broken_build_world) = true /\
      mvn_compile broken_build_world = Completed returncode stdout stderr /\
      gradle_failed ++ u "AttendanceController.java:12: error: ';' expected" =
        maven_failed ++ take 300 stderr)).
Proof.
  apply (build_message_origin broken_build_world). by vm_compute.
Defined.

(** X5 on the commit that is denied for its two warnings. *)
Lemma deny_only_java_commits_witness :
  exists command staged_files build_error feature_names,
    payload_command documented_world command /\ names_commit command /\
    get_staged_files documented_world = Val staged_files /\
    (exists f, f ∈ staged_files /\ is_java_change f = true) /\
    all_errors documented_world staged_files build_error feature_names <> [] /\
    report documented_world [attendance_java] {[u "attendance"]}
      [catalog_unstaged_msg; no_staged_docs_msg] =
    report documented_world (filter (fun f => is_java_change f) staged_files) feature_names
      (all_errors documented_world staged_files build_error feature_names).
Proof.
  apply (deny_only_java_commits documented_world). by vm_compute.
Defined.

(** X7 on an input that is no text and on four payloads: a list, a null
    [tool_input], a number for a command, and no [tool_input] at all. *)
Lemma payload_shapes_witness :
  main (stdin_world (LoadRaises UnicodeDecodeError)) = Uncaught UnicodeDecodeError /\
  main (payload_world (JArr [])) = Uncaught AttributeError /\
  main (payload_world (JObj [(u "tool_input", JNull)])) = Uncaught AttributeError /\
  main (payload_world (JObj [(u "tool_input", JObj [(u "command", JInt 1)])])) =
    Uncaught TypeError /\
  main (payload_world (JObj [(u "session_id", JStr (u "s1"))])) = Allow.
Proof.
  split; [|split; [|split; [|split]]].
  - by apply (proj1 (proj2 (payload_shapes (stdin_world (LoadRaises UnicodeDecodeError))))).
  - by apply (proj1 (proj2 (proj2 (payload_shapes (payload_world (JArr []))))) (JArr [])).
  - by apply (proj1 (proj2 (proj2 (proj2 (payload_shapes
                (payload_world (JObj [(u "tool_input", JNull)])))))
                [(u "tool_input", JNull)] eq_refl)).
  - by apply (proj1 (proj2 (proj2 (proj2 (proj2 (payload_shapes
                (payload_world (JObj [(u "tool_input", JObj [(u "command", JInt 1)])])))))
                [(u "tool_input", JObj [(u "command", JInt 1)])] eq_refl)
                [(u "command", JInt 1)] eq_refl)).
  - by apply (proj2 (proj2 (proj2 (payload_shapes
                (payload_world (JObj [(u "session_id", JStr (u "s1"))])))))
                [(u "session_id", JStr (u "s1"))] eq_refl).
Defined.

(** X8 on a commit after a change of directory and before a push. *)
Lemma commit_in_compound_command_witness :
  is_git_commit (u "cd /repo &&" ++ 32 :: u "git commit -m wip" ++ 59 :: u " git push")
  = true.
Proof.
  apply (commit_in_compound_command (u "cd /repo &&") (u " git push")
           (u "git commit -m wip") 32 59); by vm_compute.
Defined.

(** X9 on a query whose output has blank lines and spaces around a path. *)
Lemma staged_files_clean_witness :
  Forall (fun f => f <> [] /\ strip f = f /\ 10 ∉ f)
    [attendance_java; u "README.md"] /\
  forall returncode stdout stderr,
    git_diff_cached
      (commit_world [] (nl ++ u "  " ++ attendance_java ++ nl ++ nl ++ u "README.md " ++ nl)
         (Completed 0 [] [])) = Completed returncode stdout stderr ->
    Forall (fun f => occurs_in f stdout) [attendance_java; u "README.md"].
Proof.
  apply (staged_files_clean
           (commit_world []
              (nl ++ u "  " ++ attendance_java ++ nl ++ nl ++ u "README.md " ++ nl)
              (Completed 0 [] []))).
  by vm_compute.
Defined.

(** X10 on a list that holds a file twice. *)
Lemma extract_feature_names_union_witness :
  extract_feature_names [attendance_java; util_java; attendance_java] =
  extract_feature_names [util_java; attendance_java].
Proof.
  apply (proj2 (extract_feature_names_union
                  [attendance_java; util_java; attendance_java]
                  [util_java; attendance_java])).
  intros f. split; intros Hf.
  - apply elem_of_cons in Hf as [->|Hf]; [right; left|].
    apply elem_of_cons in Hf as [->|Hf]; [left|]. by right.
  - apply elem_of_cons in Hf as [->|Hf]; [right; left|]. by right; right.
Defined.

(** X11 on a file of two capitalised words in a flat package. *)
Lemma filename_feature_shape_witness :
  feature_of (u "src/main/java/com/erp" ++ 47 :: u "PayrollReport" ++ u ".java") =
    Val (map ascii_lower <$> capital_word (u "PayrollReport")) /\
  forall word,
    capital_word (u "PayrollReport") = Some word ->
    (exists rest, u "PayrollReport" = word ++ rest) /\ (2 <= length word)%nat /\
    Forall (fun c => in_range 97 122 c = true) (map ascii_lower word).
Proof.
  apply (filename_feature_shape (u "src/main/java/com/erp") (u "PayrollReport")).
  - decide_by_evaluation.
  - by vm_compute.
  - unfold no_layer. decide_by_evaluation.
Defined.

(** X12 on the controller of the attendance feature. *)
Lemma probed_paths_witness :
  (47 ∉ u "attendance") /\
  (exists p, docs_dir_of documented_world = p ++ u "src/docs" /\
             (p = project_dir documented_world \/
              p = project_dir documented_world ++ u "/")) /\
  catalog_path documented_world = docs_dir_of documented_world ++ u "/ERROR_MESSAGES.md" /\
  spec_path documented_world (u "attendance") =
    docs_dir_of documented_world ++ u "/" ++ u "attendance" ++ u "_기능명세서.md" /\
  spec_path documented_world (capitalize (u "attendance")) =
    docs_dir_of documented_world ++ u "/" ++ capitalize (u "attendance") ++
      u "_기능명세서.md" /\
  arch_path documented_world (u "attendance") =
    docs_dir_of documented_world ++ u "/architecture/" ++ u "attendance" ++ u ".md" /\
  guide_path documented_world (u "attendance") =
    docs_dir_of documented_world ++ u "/user-guide/" ++ u "attendance" ++ u ".md".
Proof.
  apply (probed_paths documented_world attendance_java (u "attendance")).
  - decide_by_evaluation.
  - by vm_compute.
Defined.

(** * Properties of the handoff writer *)

Section HandoffProperties.
Import Handoff.

Opaque u.

Lemma parse_lines_omap lines : parse_lines lines = omap id lines.
Proof.
  unfold parse_lines.
  assert (forall acc, foldl (fun messages line =>
                        match line with
                        | Some msg => messages ++ [msg]
                        | None => messages
                        end) acc lines = acc ++ omap id lines) as Hacc.
  { induction lines as [|[msg|] lines IH]; intros acc; cbn.
    - by rewrite app_nil_r.
    - by rewrite IH, <- app_assoc.
    - apply IH. }
  apply Hacc.
Qed.

Lemma assistant_msgs_dicts recent :
  Forall (fun m => is_dict m = true) recent ->
  assistant_msgs recent = Ok (filter (fun m => says_text m) recent).
Proof.
  induction 1 as [|m recent Hm _ IH]; [done|].
  cbn [assistant_msgs]. rewrite IH, filter_cons.
  destruct m as [| | | | | |fields]; try done. cbn.
  destruct (field (u "role") fields) as [role|]; cbn; [|done].
  destruct (eq_str role (u "assistant")) eqn:Hrole; cbn.
  - destruct (field (u "content") fields) as [[]|]; by cbn.
  - by destruct (field (u "content") fields) as [[]|].
Qed.

Lemma assistant_msgs_non_dict recent m :
  m ∈ recent -> is_dict m = false -> assistant_msgs recent = Raise AttributeError.
Proof.
  induction recent as [|m' recent IH]; [by intros ?%elem_of_nil|].
  intros [->|Hin]%elem_of_cons Hm.
  - by destruct m'.
  - cbn [assistant_msgs]. rewrite (IH Hin Hm).
    destruct m' as [| | | | | |fields]; try done. cbn.
    destruct (eq_str _ _); cbn; [|done].
    by destruct (field (u "content") fields).
Qed.






Lemma str_leb_total a : forall b, str_leb a b = true \/ str_leb b a = true.
Proof.
  induction a as [|x a IH]; intros [|y b]; cbn; [by left..|by right|].
  destruct (x <? y) eqn:Hxy; [by left|].
  destruct (y <? x) eqn:Hyx; [by right|]. apply IH.
Qed.

#[export] Instance str_le_total : Total str_le.
Proof. intros a b. apply str_leb_total. Qed.


Lemma assistant_msgs_ok recent assistant :
  assistant_msgs recent = Ok assistant ->
  assistant = filter (fun m => says_text m) recent.
Proof.
  intros Hok.
  destruct (decide (Forall (fun m => is_dict m = true) recent)) as [Hall|Hsome].
  - rewrite (assistant_msgs_dicts _ Hall) in Hok. by injection Hok.
  - apply not_Forall_Exists in Hsome; [|apply _].
    apply Exists_exists in Hsome as (m & Hin & Hm).
    rewrite (assistant_msgs_non_dict recent m Hin) in Hok; [done|].
    by apply not_true_is_false.
Qed.

Lemma says_text_content m :
  says_text m = true ->
  exists fields content,
    m = JObj fields /\ field (u "content") fields = Some (JStr content).
Proof.
  destruct m as [| | | | | |fields]; try done. cbn [says_text].
  destruct (field (u "role") fields); [|done].
  destruct (field (u "content") fields) as [[| | | |content| |]|] eqn:Hc; try done.
  intros _. by exists fields, content.
Qed.

Lemma mapM_summary msgs :
  Forall (fun m => says_text m = true) msgs ->
  exists items,
    mapM summary_line msgs = Ok items /\
    Forall2 (fun m item =>
               exists fields content,
                 m = JObj fields /\ field (u "content") fields = Some (JStr content) /\
                 item = u "- " ++ take 200 content) msgs items.
Proof.
  induction 1 as [|m msgs (fields & content & -> & Hc)%says_text_content _
                    (items & Hitems & Hall)].
  - exists []. by split; [|constructor].
  - exists ((u "- " ++ take 200 content) :: items). split.
    + assert (summary_line (JObj fields) = Ok (u "- " ++ take 200 content)) as Hline
        by (unfold summary_line; cbn [get]; by rewrite Hc).
      cbn [mapM]. by rewrite Hline, Hitems.
    + constructor; [|done]. by exists fields, content.
Qed.

Lemma length_str_join (sep : str) (k : nat) (items : list str) :
  Forall (fun item => (length item <= k)%nat) items ->
  (length (str_join sep items) + length sep <= length items * (k + length sep) + length sep)%nat /\
  (items <> [] ->
   (length (str_join sep items) + length sep <= length items * (k + length sep))%nat).
Proof.
  unfold str in *.
  induction 1 as [|item items Hitem _ [_ IH]].
  - split; [cbn [str_join length]; lia | done].
  - assert (length (str_join sep (item :: items)) + length sep
            <= length (item :: items) * (k + length sep))%nat as Hle.
    { destruct items as [|item' items].
      - cbn [str_join length]. lia.
      - change (str_join sep (item :: item' :: items))
          with (item ++ sep ++ str_join sep (item' :: items)).
        rewrite !length_app. specialize (IH ltac:(done)).
        change (length (item :: item' :: items)) with (S (length (item' :: items))).
        unfold str in *. lia. }
    split; [lia | done].
Qed.

(** X14. The summary has one item for each of the last five messages of
    the assistant whose content is a text, in their order, five at most,
    joined by line feeds. An item is a dash and the first 200 characters
    of the content, so the summary has 1014 characters at most; it has as
    many lines as the contents give it, for a content keeps its line
    feeds. *)
Theorem handoff_summary_bound recent assistant :
  assistant_msgs recent = Ok assistant ->
  assistant = filter (fun m => says_text m) recent /\
  exists items,
    summary_lines assistant = Ok (str_join nl items) /\
    (length items <= 5)%nat /\
    Forall2 (fun m item =>
               exists fields content,
                 m = JObj fields /\ field (u "content") fields = Some (JStr content) /\
                 item = u "- " ++ take 200 content)
      (last_n 5 assistant) items /\
    (length (str_join nl items) <= 1014)%nat.
Proof.
  intros ->%assistant_msgs_ok. split; [done|].
  destruct (mapM_summary (last_n 5 (filter (fun m => says_text m) recent)))
    as (items & Hitems & Hall).
  { unfold last_n. apply Forall_drop, Forall_forall.
    intros m [Hm _]%list_elem_of_filter. by apply Is_true_true. }
  exists items. unfold summary_lines. rewrite Hitems. split; [done|].
  assert (length items <= 5)%nat as Hlen.
  { rewrite <- (Forall2_length _ _ _ Hall). unfold last_n. rewrite length_drop. lia. }
  split; [done|]. split; [done|].
  assert (Forall (fun item => (length item <= 202)%nat) items) as Hshort.
  { clear Hitems Hlen. induction Hall as [|m item ms items' (fields & content & _ & _ & ->) _ IH];
      constructor; [|done].
    rewrite length_app, length_take.
    replace (length (u "- ")) with 2%nat by (by vm_compute). lia. }
  destruct (length_str_join nl 202 items Hshort) as [_ Hjoin].
  destruct items as [|item items]; [cbn [str_join length]; lia|].
  specialize (Hjoin ltac:(done)).
  replace (length nl) with 1%nat in Hjoin by done.
  assert (length (item :: items) * 203 <= 5 * 203)%nat by (apply Nat.mul_le_mono_r; exact Hlen).
  replace (202 + 1)%nat with 203%nat in Hjoin by done. unfold str in *. lia.
Qed.

(** X15. A file is written only with the text that was put together from
    the payload and the transcript, to the latest note or to the archive;
    a run that ends well made the directory and wrote the same text to
    both, the latest note first. *)
Theorem handoff_writes_one_text w trace out :
  run w = (trace, out) ->
  (out = Done ->
   exists text,
     trace = [MakeDirs (handoff_dir w); WriteFile (latest_path w) text;
              WriteFile (archive_path w) text]) /\
  (forall path text,
     WriteFile path text ∈ trace ->
     (path = latest_path w \/ path = archive_path w) /\
     exists input_data transcript_path trigger,
       stdin w = Some input_data /\
       get input_data (u "transcript_path") (JStr []) = Ok transcript_path /\
       get input_data (u "trigger") (JStr (u "unknown")) = Ok trigger /\
       compose w input_data transcript_path trigger = Ok text).
Proof.
  unfold run. destruct (stdin w) as [input_data|]; cycle 1.
  { intros [= <- <-]. split; [done|]. by intros path text ?%elem_of_nil. }
  destruct (get input_data (u "transcript_path") (JStr [])) as [transcript_path|e|] eqn:Htp;
    [|intros [= <- <-]; split; [done|]; by intros path text ?%elem_of_nil..].
  destruct (get input_data (u "trigger") (JStr (u "unknown"))) as [trigger|e|] eqn:Htr;
    [|intros [= <- <-]; split; [done|]; by intros path text ?%elem_of_nil..].
  destruct (makedirs w (handoff_dir w)) as [e|].
  { intros [= <- <-]. split; [done|]. by intros path text ?%elem_of_nil. }
  destruct (compose w input_data transcript_path trigger) as [handoff|e|] eqn:Hc;
    [|intros [= <- <-]; split; [done|];
      by intros path text [[=]|?%elem_of_nil]%elem_of_cons..].
  assert (forall path text,
            WriteFile path text ∈ [WriteFile (latest_path w) handoff;
                                   WriteFile (archive_path w) handoff] ->
            (path = latest_path w \/ path = archive_path w) /\
            exists i t g, Some input_data = Some i /\
              get i (u "transcript_path") (JStr []) = Ok t /\
              get i (u "trigger") (JStr (u "unknown")) = Ok g /\
              compose w i t g = Ok text) as Hwritten.
  { intros path text [[= -> ->]|[[= -> ->]|?%elem_of_nil]%elem_of_cons]%elem_of_cons;
      [split; [by left|] | split; [by right|] | done];
      by exists input_data, transcript_path, trigger. }
  destruct (write_file w (latest_path w) handoff) as [e|].
  { intros [= <- <-]. split; [done|].
    by intros path text [[=]|?%elem_of_nil]%elem_of_cons. }
  destruct (write_file w (archive_path w) handoff) as [e|]; intros [= <- <-].
  - split; [done|]. intros path text [[=]|Hin]%elem_of_cons. apply Hwritten.
    apply elem_of_cons in Hin as [->|?%elem_of_nil]; [left|done].
  - split; [by exists handoff|].
    intros path text [[=]|Hin]%elem_of_cons. by apply Hwritten.
Qed.

(** X16. One line of the transcript that decodes to something else than an
    object, among the last eighty that decode, ends the script with an
    [AttributeError] before any file is written. *)
Theorem handoff_non_object_message w fields path lines m :
  stdin w = Some (JObj fields) ->
  field (u "transcript_path") fields = Some (JStr path) -> path <> [] ->
  makedirs w (handoff_dir w) = None ->
  path_exists w path = true ->
  read_lines w path = Ok lines ->
  m ∈ last_n 80 (parse_lines lines) -> is_dict m = false ->
  run w = ([MakeDirs (handoff_dir w)], Raised AttributeError).
Proof.
  intros Hin Hpath Hne Hdirs Hexists Hlines Hm Hdict. unfold run.
  rewrite Hin. cbn [get]. rewrite Hpath, Hdirs. cbn [from_option id].
  unfold compose, load_messages.
  destruct path as [|c path]; [done|]. cbn [truth truthy]. cbn [mbind result_bind].
  rewrite Hexists, Hlines. cbn [mbind result_bind mret result_ret].
  by rewrite (assistant_msgs_non_dict _ _ Hm Hdict).
Qed.

Lemma handoff_text_length w1 w2 input_data trigger messages1 messages2 changed assistant :
  timestamp w1 = timestamp w2 -> length messages1 = length messages2 ->
  handoff_text w1 input_data trigger messages1 changed assistant =
  handoff_text w2 input_data trigger messages2 changed assistant.
Proof. intros Ht Hl. unfold handoff_text. by rewrite Ht, Hl. Qed.

(** X17. The note depends on the transcript through the number of lines
    that decode and the last eighty of them alone: lines that do not decode
    and messages before the last eighty change nothing else. *)
Theorem handoff_window w1 w2 :
  stdin w1 = stdin w2 -> project_dir w1 = project_dir w2 ->
  (forall p, makedirs w1 p = makedirs w2 p) ->
  (forall p, path_exists w1 p = path_exists w2 p) ->
  timestamp w1 = timestamp w2 -> filename w1 = filename w2 ->
  (forall p text, write_file w1 p text = write_file w2 p text) ->
  (forall p, same_tail (read_lines w1 p) (read_lines w2 p)) ->
  run w1 = run w2.
Proof.
  intros Hin Hdir Hmk Hex Hts Hfn Hwr Hrd.
  assert (handoff_dir w1 = handoff_dir w2) as Hhd by (unfold handoff_dir; by rewrite Hdir).
  assert (latest_path w1 = latest_path w2) as Hlp by (unfold latest_path; by rewrite Hdir).
  assert (archive_path w1 = archive_path w2) as Hap
    by (unfold archive_path; by rewrite Hhd, Hfn).
  assert (forall input_data transcript_path trigger,
            compose w1 input_data transcript_path trigger =
            compose w2 input_data transcript_path trigger) as Hcompose.
  { intros input_data transcript_path trigger.
    assert (match load_messages w1 transcript_path, load_messages w2 transcript_path with
            | Ok m1, Ok m2 => length m1 = length m2 /\ last_n 80 m1 = last_n 80 m2
            | Raise e1, Raise e2 => e1 = e2
            | Unmodelled, Unmodelled => True
            | _, _ => False
            end) as Hload.
    { unfold load_messages.
      destruct (truth transcript_path) as [[|]| |]; cbn [mbind result_bind]; [|done..].
      destruct transcript_path as [| | | |p| |]; try done.
      rewrite Hex. destruct (path_exists w2 p); [|done].
      destruct (Hrd p) as [-> | (lines1 & lines2 & -> & -> & Hlen & Htail)].
      - by destruct (read_lines w2 p) as [lines| |].
      - done. }
    unfold compose.
    destruct (load_messages w1 transcript_path) as [m1|e1|],
      (load_messages w2 transcript_path) as [m2|e2|]; try done; [|by subst].
    destruct Hload as [Hlen Htail]. cbn [mbind result_bind]. rewrite Htail.
    destruct (assistant_msgs _) as [assistant| |]; cbn [mbind result_bind]; [|done..].
    destruct (changed_files_of _) as [changed| |]; cbn [mbind result_bind]; [|done..].
    by apply handoff_text_length. }
  unfold run. rewrite Hin, Hhd, Hlp, Hap, Hmk.
  destruct (stdin w2) as [input_data|]; [|done].
  destruct (get input_data _ _) as [transcript_path| |]; [|done..].
  destruct (get input_data _ _) as [trigger| |]; [|done..].
  destruct (makedirs w2 (handoff_dir w2)); [done|].
  rewrite Hcompose. destruct (compose w2 _ _ _) as [handoff| |]; [|done..].
  by rewrite !Hwr.
Qed.

Transparent u.


(** X14 on two answers, the second of two lines. *)
Lemma handoff_summary_bound_witness :
  [said (u "assistant") (JStr (u "renamed in both files"));
   said (u "assistant") (JStr (u "done:" ++ nl ++ u "src/a.py"))] =
  filter (fun m => says_text m)
    [said (u "user") (JStr (u "rename the module"));
     said (u "assistant") (JStr (u "renamed in both files"));
     said (u "assistant") (JArr [tool_use (u "src/a.py")]);
     said (u "assistant") (JStr (u "done:" ++ nl ++ u "src/a.py"))] /\
  exists items,
    summary_lines
      [said (u "assistant") (JStr (u "renamed in both files"));
       said (u "assistant") (JStr (u "done:" ++ nl ++ u "src/a.py"))] =
      Ok (str_join nl items) /\
    (length items <= 5)%nat /\
    Forall2 (fun m item =>
               exists fields content,
                 m = JObj fields /\ field (u "content") fields = Some (JStr content) /\
                 item = u "- " ++ take 200 content)
      (last_n 5 [said (u "assistant") (JStr (u "renamed in both files"));
                 said (u "assistant") (JStr (u "done:" ++ nl ++ u "src/a.py"))]) items /\
    (length (str_join nl items) <= 1014)%nat.
Proof.
  apply (handoff_summary_bound
           [said (u "user") (JStr (u "rename the module"));
            said (u "assistant") (JStr (u "renamed in both files"));
            said (u "assistant") (JArr [tool_use (u "src/a.py")]);
            said (u "assistant") (JStr (u "done:" ++ nl ++ u "src/a.py"))]).
  by vm_compute.
Defined.

(** X15 on the sample. *)
Lemma handoff_writes_one_text_witness :
  exists text,
    fst (run (sample_world sample_lines)) =
      [MakeDirs (handoff_dir (sample_world sample_lines));
       WriteFile (latest_path (sample_world sample_lines)) text;
       WriteFile (archive_path (sample_world sample_lines)) text].
Proof.
  apply (proj1 (handoff_writes_one_text (sample_world sample_lines)
                  (fst (run (sample_world sample_lines)))
                  (snd (run (sample_world sample_lines)))
                  (surjective_pairing _))).
  by vm_compute.
Defined.

(** X16 on the transcript with a line that decodes to a list. *)
Lemma handoff_non_object_message_witness :
  run (sample_world broken_lines) =
    ([MakeDirs (handoff_dir (sample_world broken_lines))], Raised AttributeError).
Proof.
  apply (handoff_non_object_message (sample_world broken_lines)
           [(u "transcript_path", JStr (u "/tmp/t.jsonl"));
            (u "trigger", JStr (u "manual")); (u "session_id", JStr (u "s-1"))]
           (u "/tmp/t.jsonl") broken_lines (JArr [])).
  - reflexivity.
  - by vm_compute.
  - by vm_compute.
  - reflexivity.
  - reflexivity.
  - reflexivity.
  - replace (last_n 80 (parse_lines broken_lines))
      with (parse_lines sample_lines ++ [JArr []]) by (by vm_compute).
    apply elem_of_app. right. left.
  - reflexivity.
Defined.

(** X17 on the sample and the sample with lines that do not decode. *)
Lemma handoff_window_witness :
  run (sample_world sample_lines) = run (sample_world noisy_lines).
Proof.
  apply handoff_window; try reflexivity.
  intros p. right. exists sample_lines, noisy_lines.
  split; [reflexivity|]. split; [reflexivity|]. split; by vm_compute.
Defined.

End HandoffProperties.
